(** * composetx: request validation and the compose / sign / push workflow

    A shallow embedding of [src/js/core/methods/composetx.js].

    The file has three parts:
    - [JS]: the fragment of the JavaScript value semantics the method relies
      on ([typeof], truthiness, [ToString], [parseInt], [+], [>], property
      reads, object spread);
    - [params]: the synchronous validator, with the collaborators it imports
      ([getCoinInfoByCurrency], [fromBase58Check], [stringToHex],
      [checkPermissions]) as section variables;
    - [method]: the asynchronous workflow, as a state-passing interpreter over
      the sequence of events delivered to it (UI responses and discovery
      callbacks), recording every call to a collaborator in a log. *)

From Stdlib Require Import ZArith Lia Bool Ascii String List DecimalString.
From Stdlib Require DecimalPos.
From stdpp Require Import base option list strings gmap.

Set Warnings "-register-all".
Local Open Scope Z_scope.

(** ** JavaScript values *)

Module JS.

(** Numbers.  Finite numbers are held by their integer value, exactly; the
    rounding of binary64, fractions and the infinities are outside the model
    (amounts, fees and lock times are integers in this program). *)
Inductive number :=
  | NaN
  | Int (z : Z).

Inductive value :=
  | Undefined
  | Null
  | Bool (b : bool)
  | Num (n : number)
  | Str (s : string)
  | Arr (elems : list value)
  | Obj (props : gmap string value).

(** What an expression evaluates to: a value, or an exception. *)
Inductive thrown :=
  | Error (message : string)        (* [throw new Error(message)] *)
  | TypeError                       (* raised by the engine, e.g. a property read on [undefined] *)
  | Thrown (v : value).             (* [throw obj] *)

Definition typeof (v : value) : string :=
  match v with
  | Undefined => "undefined"
  | Null => "object"
  | Bool _ => "boolean"
  | Num _ => "number"
  | Str _ => "string"
  | Arr _ | Obj _ => "object"
  end.

(** [ToBoolean]. *)
Definition truthy (v : value) : bool :=
  match v with
  | Undefined | Null => false
  | Bool b => b
  | Num NaN => false
  | Num (Int z) => negb (z =? 0)
  | Str s => negb (String.eqb s "")
  | Arr _ | Obj _ => true
  end.

Definition isArray (v : value) : bool :=
  match v with Arr _ => true | _ => false end.

Definition number_to_string (n : number) : string :=
  match n with
  | NaN => "NaN"
  | Int z => NilZero.string_of_int (Z.to_int z)
  end.

(** [ToString].  An array joins its elements with a comma, [undefined] and
    [null] elements printing as the empty string; a plain object prints as
    [[object Object]]. *)
Fixpoint to_string (v : value) : string :=
  match v with
  | Undefined => "undefined"
  | Null => "null"
  | Bool true => "true"
  | Bool false => "false"
  | Num n => number_to_string n
  | Str s => s
  | Arr l =>
      String.concat ","
        (List.map (fun e => match e with
                            | Undefined | Null => ""
                            | _ => to_string e
                            end) l)
  | Obj _ => "[object Object]"
  end.

(** *** Characters *)

Definition code (c : ascii) : Z := Z.of_N (N_of_ascii c).

(** White space and line terminators among the code units below 256. *)
Definition is_space (c : ascii) : bool :=
  let n := code c in
  ((9 <=? n) && (n <=? 13)) || (n =? 32) || (n =? 160).

(** The value of [c] as a digit, in any radix up to 36. *)
Definition digit_value (c : ascii) : option Z :=
  let n := code c in
  if (48 <=? n) && (n <=? 57) then Some (n - 48)
  else if (97 <=? n) && (n <=? 122) then Some (n - 87)
  else if (65 <=? n) && (n <=? 90) then Some (n - 55)
  else None.

Definition digit_in (radix : Z) (c : ascii) : option Z :=
  match digit_value c with
  | Some d => if d <? radix then Some d else None
  | None => None
  end.

Fixpoint trim_left (s : string) : string :=
  match s with
  | String c r => if is_space c then trim_left r else s
  | EmptyString => EmptyString
  end.

(** The longest prefix of [s] made of digits of [radix], most significant
    first, and what follows it. *)
Fixpoint span_digits (radix : Z) (s : string) : list Z * string :=
  match s with
  | String c r =>
      match digit_in radix c with
      | Some d => let '(ds, rest) := span_digits radix r in (d :: ds, rest)
      | None => ([], s)
      end
  | EmptyString => ([], EmptyString)
  end.

Definition digits_value (radix : Z) (ds : list Z) : Z :=
  fold_left (fun acc d => acc * radix + d) ds 0.

Definition strip_sign (s : string) : Z * string :=
  match s with
  | String "-" r => (-1, r)
  | String "+" r => (1, r)
  | _ => (1, s)
  end.

Definition strip_hex_prefix (s : string) : option string :=
  match s with
  | String "0" (String "x" r) | String "0" (String "X" r) => Some r
  | _ => None
  end.

(** [parseInt(s)] on a string, without a radix argument: leading white space,
    an optional sign, an optional [0x], then as many digits as there are;
    [NaN] when there is none. *)
Definition parseInt_string (s : string) : number :=
  let '(sign, s1) := strip_sign (trim_left s) in
  let '(radix, s2) :=
    match strip_hex_prefix s1 with
    | Some r => (16, r)
    | None => (10, s1)
    end in
  match fst (span_digits radix s2) with
  | [] => NaN
  | ds => Int (sign * digits_value radix ds)
  end.

(** [parseInt(v)]: the argument is converted with [ToString] first. *)
Definition parseInt (v : value) : number := parseInt_string (to_string v).

Definition isNaN (n : number) : bool :=
  match n with NaN => true | Int _ => false end.

(** *** Arithmetic and comparison *)

Fixpoint trim_right (s : string) : string :=
  match s with
  | String c r =>
      match trim_right r with
      | EmptyString => if is_space c then EmptyString else String c EmptyString
      | r' => String c r'
      end
  | EmptyString => EmptyString
  end.

Definition trim (s : string) : string := trim_right (trim_left s).

(** A whole string of digits of [radix], at least one. *)
Definition all_digits (radix : Z) (s : string) : option Z :=
  match span_digits radix s with
  | (d :: ds, EmptyString) => Some (digits_value radix (d :: ds))
  | _ => None
  end.

Definition strip_radix_prefix (s : string) : option (Z * string) :=
  match s with
  | String "0" (String "x" r) | String "0" (String "X" r) => Some (16, r)
  | String "0" (String "o" r) | String "0" (String "O" r) => Some (8, r)
  | String "0" (String "b" r) | String "0" (String "B" r) => Some (2, r)
  | _ => None
  end.

(** Characters a decimal literal with a fraction or an exponent is made of. *)
Definition decimal_char (c : ascii) : bool :=
  match digit_in 10 c with
  | Some _ => true
  | None =>
      match c with
      | "."%char | "e"%char | "E"%char | "+"%char | "-"%char => true
      | _ => false
      end
  end.

Fixpoint forall_chars (p : ascii -> bool) (s : string) : bool :=
  match s with
  | String c r => p c && forall_chars p r
  | EmptyString => true
  end.

(** [ToNumber] on a string.  White space is trimmed; the empty string is 0;
    [0x], [0o] and [0b] literals and signed decimal integers have their
    value; anything else that cannot be a numeric literal is [NaN].  [None]
    marks the strings whose value is not an integer ([Infinity], fractions,
    exponents): they are outside the model. *)
Definition string_to_number (s : string) : option number :=
  let t := trim s in
  match t with
  | EmptyString => Some (Int 0)
  | _ =>
      match strip_radix_prefix t with
      | Some (radix, r) =>
          Some (match all_digits radix r with Some z => Int z | None => NaN end)
      | None =>
          let '(sign, r) := strip_sign t in
          match all_digits 10 r with
          | Some z => Some (Int (sign * z))
          | None =>
              if String.eqb r "Infinity" || forall_chars decimal_char r
              then None
              else Some NaN
          end
      end
  end.

(** [ToNumber]; arrays and objects go through [ToPrimitive], which yields
    their [ToString]. *)
Definition to_number (v : value) : option number :=
  match v with
  | Undefined => Some NaN
  | Null => Some (Int 0)
  | Bool b => Some (Int (if b then 1 else 0))
  | Num n => Some n
  | Str s => string_to_number s
  | Arr _ | Obj _ => string_to_number (to_string v)
  end.

Definition number_add (a b : number) : number :=
  match a, b with
  | Int x, Int y => Int (x + y)
  | _, _ => NaN
  end.

(** Operands that [ToPrimitive] turns into a string. *)
Definition stringy (v : value) : bool :=
  match v with Str _ | Arr _ | Obj _ => true | _ => false end.

(** [a + b]: concatenation as soon as one operand is a string after
    [ToPrimitive], addition of numbers otherwise. *)
Definition add (a b : value) : value :=
  if stringy a || stringy b then Str (to_string a ++ to_string b)
  else
    match to_number a, to_number b with
    | Some x, Some y => Num (number_add x y)
    | _, _ => Num NaN   (* not reached: neither operand is a string *)
    end.

(** [v > 0].  [None] when [v] is a string outside the model. *)
Definition gt_zero (v : value) : option bool :=
  match to_number v with
  | Some (Int z) => Some (0 <? z)
  | Some NaN => Some false
  | None => None
  end.

(** *** Property reads *)

(** [v.k], for the property names this program reads.  [None] is the
    [TypeError] of a read on [undefined] or [null]. *)
Definition get (v : value) (k : string) : option value :=
  match v with
  | Undefined | Null => None
  | Obj m => Some (default Undefined (m !! k))
  | Arr l => Some (if String.eqb k "length" then Num (Int (Z.of_nat (length l))) else Undefined)
  | Str s => Some (if String.eqb k "length" then Num (Int (Z.of_nat (String.length s))) else Undefined)
  | Bool _ | Num _ => Some Undefined
  end.

(** [v === 'literal']. *)
Definition is_string (v : value) (lit : string) : bool :=
  match v with Str s => String.eqb s lit | _ => false end.

(** [v === 0]. *)
Definition is_zero (v : value) : bool :=
  match v with Num (Int 0) => true | _ => false end.

(** [{ ...base, ...extra }]: the properties of [extra] win. *)
Definition spread (base extra : gmap string value) : gmap string value :=
  extra ∪ base.

End JS.

Import JS.

(** ** Completions *)

(** The outcome of running a piece of the program: it returns, it throws, or
    it needs the numeric value of a string that [JS.string_to_number] does
    not model. *)
Inductive completion (A : Type) :=
  | Return (a : A)
  | Throw (e : thrown)
  | OutOfModel.

Arguments Return {A} a.
Arguments Throw {A} e.
Arguments OutOfModel {A}.

#[global] Instance completion_bind : MBind completion := fun A B k c =>
  match c with
  | Return a => k a
  | Throw e => Throw e
  | OutOfModel => OutOfModel
  end.

#[global] Instance completion_ret : MRet completion := fun A a => Return a.

(** [v.k] as a completion. *)
Definition read (v : value) (k : string) : completion value :=
  match get v k with
  | Some x => Return x
  | None => Throw TypeError
  end.

(** [if (c) throw new Error(message)]. *)
Definition throw_if (c : bool) (message : string) : completion unit :=
  if c then Throw (Error message) else Return tt.

(** ** The data of the method *)

(** [CoinInfo], with the fields this file reads. *)
Record Network := { pubKeyHash : Z; scriptHash : Z }.

Record CoinInfo := {
  coin_name : string;
  segwit : bool;
  minFee : Z;
  network : Network;
}.

(** The parsed outputs, tagged by their [type]: ['opreturn'], ['send-max'],
    ['complete'].  [dataHex] and the address of a send-max output are copied
    from the request unchecked, so they are arbitrary values. *)
Inductive Output :=
  | OpReturn (dataHex : value)
  | SendMax (address : value)
  | Complete (address : string) (amount : number).

Record Input := {
  outputs : list Output;
  locktime : number;
  coinInfo : CoinInfo;
  total : value;
  pushTransaction : bool;
}.

(** [MethodParams], without the two function-valued fields. *)
Record MethodParams := {
  responseID : value;
  name : string;
  useUi : bool;
  useDevice : bool;
  requiredFirmware : string;
  requiredPermissions : list string;
  input : Input;
}.

(** ** The validator: [params] *)

Definition is_hex_char (c : ascii) : bool :=
  match digit_in 16 c with Some _ => true | None => false end.

(** [/^[0-9A-Fa-f]{6}$/g.test(s)]; the literal is evaluated afresh for each
    output, so [lastIndex] is 0. *)
Definition re_test (s : string) : bool :=
  (Z.of_nat (String.length s) =? 6) && forall_chars is_hex_char s.

Section Validator.

(** Collaborators imported by the file. *)
Variable checkPermissions : list string -> list string.
Variable getCoinInfoByCurrency : string -> option CoinInfo.
Variable stringToHex : string -> string.
(** [bitcoin.address.fromBase58Check(s).version]; [None] when it throws. *)
Variable fromBase58Check : string -> option Z.

(** The variables the loop over [raw.outputs] assigns. *)
Record Parsed := {
  p_total : value;
  p_hasSendMax : bool;
  p_outputs : list Output;
}.

(** The [opreturn] branch; [n] is [raw.outputs.length]. *)
Definition parse_opreturn (n : nat) (out : value) : completion Output :=
  throw_if (1 <? Z.of_nat n)
    "Only one output allowed when sending OP_RETURN transaction" ;;
  data ← read out "data";
  match data with
  | Str s =>
      if 0 <? Z.of_nat (String.length s) then
        dataFormat ← read out "dataFormat";
        s' ← (if String.eqb (typeof dataFormat) "string" && is_string dataFormat "text"
               then Return (stringToHex s)
               else throw_if (negb (re_test s))
                      "OP_RETURN data is not valid hexadecimal" ;;
                    Return s);
        throw_if (80 * 2 <? Z.of_nat (String.length s'))
          "OP_RETURN data size is larger than 80 bytes" ;;
        Return (OpReturn (Str s'))
      else Return (OpReturn data)
  | _ => Return (OpReturn data)
  end.

(** The [try { ... } catch (error) { ... }] around the address check: both
    a decoding failure and the version mismatch thrown inside the [try] end
    in the [catch], which throws the one message. *)
Definition check_address (coin : CoinInfo) (address : string) : completion unit :=
  let attempt : completion unit :=
    match fromBase58Check address with
    | None => Throw TypeError
    | Some version =>
        throw_if (negb (version =? pubKeyHash (network coin))
                  && negb (version =? scriptHash (network coin)))
          ("Invalid address type " ++ address)
    end in
  match attempt with
  | Return u => Return u
  | _ => Throw (Error ("Invalid address " ++ address))
  end.

(** One turn of [for (const out of raw.outputs)]. *)
Definition parse_output (coin : CoinInfo) (n : nat) (acc : Parsed) (out : value)
  : completion Parsed :=
  type ← read out "type";
  if is_string type "opreturn" then
    output ← parse_opreturn n out;
    Return {| p_total := p_total acc; p_hasSendMax := p_hasSendMax acc;
              p_outputs := p_outputs acc ++ [output] |}
  else if is_string type "send-max" then
    throw_if (p_hasSendMax acc) "Only one send-max output allowed" ;;
    address ← read out "address";
    Return {| p_total := p_total acc; p_hasSendMax := true;
              p_outputs := p_outputs acc ++ [SendMax address] |}
  else
    address ← read out "address";
    match address with
    | Str a =>
        check_address coin a ;;
        amount ← read out "amount";
        throw_if ((String.eqb (typeof amount) "string" && isNaN (parseInt amount))
                  && negb (String.eqb (typeof amount) "number"))
          "Output without amount" ;;
        Return {| p_total := add (p_total acc) amount;
                  p_hasSendMax := p_hasSendMax acc;
                  p_outputs := p_outputs acc ++ [Complete a (parseInt amount)] |}
    | _ => Throw (Error "Output without address")
    end.

Fixpoint parse_outputs (coin : CoinInfo) (n : nat) (acc : Parsed) (outs : list value)
  : completion Parsed :=
  match outs with
  | [] => Return acc
  | out :: rest =>
      acc' ← parse_output coin n acc out;
      parse_outputs coin n acc' rest
  end.

(** [if (total > 0 && hasSendMax) { total = 0; }]: the comparison is
    evaluated first. *)
Definition reset_total (acc : Parsed) : completion value :=
  match gt_zero (p_total acc) with
  | Some positive =>
      Return (if positive && p_hasSendMax acc then Num (Int 0) else p_total acc)
  | None => OutOfModel
  end.

Definition params (raw : value) : completion MethodParams :=
  let permissions := checkPermissions ["write"%string] in
  let requiredFirmware := "1.5.0"%string in
  (* validate coin *)
  coin ← read raw "coin";
  match getCoinInfoByCurrency
          (match coin with Str c => c | _ => "Bitcoin" end) with
  | None => Throw (Error ("Coin " ++ to_string coin ++ " not found"))
  | Some coinInfo =>
      (* validate outputs, parse them into correct type *)
      rawLocktime ← read raw "locktime";
      throw_if (truthy rawLocktime && isNaN (parseInt rawLocktime))
        "Locktime is not a number" ;;
      let locktime := parseInt rawLocktime in
      rawOutputs ← read raw "outputs";
      match rawOutputs with
      | Arr outs =>
          acc ← parse_outputs coinInfo (length outs)
                   {| p_total := Num (Int 0); p_hasSendMax := false; p_outputs := [] |}
                   outs;
          total ← reset_total acc;
          push ← read raw "push";
          let pushTransaction := match push with Bool b => b | _ => false end in
          id ← read raw "id";
          Return {|
            responseID := id;
            name := "composetx";
            useUi := true;
            useDevice := true;
            requiredFirmware := requiredFirmware;
            requiredPermissions := permissions;
            input := {| outputs := p_outputs acc;
                        locktime := locktime;
                        coinInfo := coinInfo;
                        total := total;
                        pushTransaction := pushTransaction |};
          |}
      | _ => Throw (Error "Outputs is not an Array")
      end
  end.

End Validator.

(** ** The data of the workflow *)

Record AccountInfo := {
  balance : Z;
  transactions : nat;             (* [info.transactions.length] *)
}.

Record Account := {
  id : Z;
  account_segwit : bool;          (* [account.coinInfo.segwit] *)
  info : option AccountInfo;      (* unset until the account is discovered *)
}.

(** The object [simpleAccount] builds for the popup. *)
Record SimpleAccount := {
  sa_id : Z;
  sa_label : string;
  sa_segwit : bool;
  sa_discovered : bool;
  sa_balance : Z;
  sa_fresh : bool;
}.

Definition simpleAccount (account : Account) : SimpleAccount :=
  {| sa_id := id account;
     sa_label := "Account #" ++ number_to_string (Int (id account + 1));
     sa_segwit := account_segwit account;
     sa_discovered := match info account with Some _ => true | None => false end;
     sa_balance := match info account with Some i => balance i | None => -1 end;
     sa_fresh := match info account with
                 | Some i => Z.of_nat (transactions i) <? 1
                 | None => false
                 end |}.

Record FeeLevel := { level_name : string }.

Record Transaction := { inputs : list string }.

Record Amounts := {
  totalSpent : Z;
  fee : Z;
  feePerByte : Z;
  bytes : Z;
}.

(** [BuildTxResult] of hd-wallet, tagged by its [type]: ['error'],
    ['nonfinal'], ['final']. *)
Inductive BuildTxResult :=
  | TxError (error : string)
  | TxNonFinal (a : Amounts)
  | TxFinal (a : Amounts) (transaction : Transaction).

Definition is_final (t : BuildTxResult) : bool :=
  match t with TxFinal _ _ => true | _ => false end.

(** [t.type === 'error' && t.error === 'TWO-SEND-MAX']. *)
Definition is_two_send_max (t : BuildTxResult) : bool :=
  match t with TxError e => String.eqb e "TWO-SEND-MAX" | _ => false end.

(** [t.fee] and [t.totalSpent]: [undefined] on an error result. *)
Definition fee_of (t : BuildTxResult) : value :=
  match t with
  | TxError _ => Undefined
  | TxNonFinal a | TxFinal a _ => Num (Int (fee a))
  end.

Definition totalSpent_of (t : BuildTxResult) : value :=
  match t with
  | TxError _ => Undefined
  | TxNonFinal a | TxFinal a _ => Num (Int (totalSpent a))
  end.

(** The object [simpleTxResult] builds for the popup; [bytes] and
    [feePerByte] are set for a final transaction only. *)
Record SimpleBuildTxResult := {
  sb_name : string;
  sb_minutes : Z;
  sb_fee : Z;
  sb_bytes : option Z;
  sb_feePerByte : option Z;
}.

Definition simpleTxResult (level : FeeLevel) (minutes : Z) (tx : BuildTxResult)
  : SimpleBuildTxResult :=
  match tx with
  | TxFinal a _ =>
      {| sb_name := level_name level; sb_minutes := minutes;
         sb_fee := fee a; sb_bytes := Some (bytes a);
         sb_feePerByte := Some (feePerByte a) |}
  | _ =>
      {| sb_name := level_name level; sb_minutes := minutes;
         sb_fee := 0; sb_bytes := None; sb_feePerByte := None |}
  end.

(** Messages posted to the popup, by their [UI.*] type.  Every payload that
    carries [coinInfo] carries the one of the request; it is left out. *)
Inductive UiMessage :=
  | SET_OPERATION (label : string)
  | SELECT_ACCOUNT (accounts : list SimpleAccount) (complete : bool)
  | INSUFFICIENT_FUNDS
  | SELECT_FEE (list : list SimpleBuildTxResult)
  | UPDATE_CUSTOM_FEE (simple : SimpleBuildTxResult).

(** The [UI.*] constants the event loop compares [uiResponse.event] with. *)
Record UiConstants := {
  RECEIVE_ACCOUNT : string;
  RECEIVE_FEE : string;
  CHANGE_ACCOUNT : string;
}.

(** How a promise of a collaborator settles; [reason] is the value it
    rejects with (for an [Error], an object with a [message]). *)
Inductive settled (A : Type) :=
  | Fulfilled (a : A)
  | Rejected (reason : value).

Arguments Fulfilled {A} a.
Arguments Rejected {A} reason.

(** Calls to the collaborators, as the log records them. *)
Inductive Effect :=
  | PostMessage (m : UiMessage)
  | CreateBackend (coin : string)
  | Discover (known : option (list Account))
  | StopDiscovering
  | ResolveAfter (ms : Z)
  | ComposerInit (account : option Account)
  | ComposeAllLevels
  | Compose (fee : number)
  | GetReferencedTx (inputs : list string)
  | SignTx (tx : option BuildTxResult) (locktime : number)
  | SendTransactionHex (hex : value)
  | Dispose.

(** What reaches the method while it runs, in the order it is delivered: a
    response of the popup (the UI promise resolves), or a callback of the
    discovery ([onError] rejects the UI promise).  The callbacks are taken
    where the method waits for the popup. *)
Inductive Incoming :=
  | UiResponse (event : string) (data : value)
  | OnStart (newAccount : Account) (allAccounts : list Account)
  | OnUpdate (newAccount : Account) (allAccounts : list Account)
  | OnComplete (allAccounts : list Account)
  | OnError (error : thrown).

Record TransactionComposer := {
  tc_account : option Account;
  tc_outputs : list Output;
  composed : list BuildTxResult;
}.

(** The variables [method] closes over, and the log of its calls. *)
Record Session := {
  accounts : list Account;
  discoveryCompleted : bool;
  selectedAccount : option Account;
  txComposer : option TransactionComposer;
  log : list Effect;
}.

Definition emit (e : Effect) (s : Session) : Session :=
  {| accounts := accounts s; discoveryCompleted := discoveryCompleted s;
     selectedAccount := selectedAccount s; txComposer := txComposer s;
     log := log s ++ [e] |}.

Definition postMessage (m : UiMessage) : Session -> Session := emit (PostMessage m).

Definition set_accounts (l : list Account) (s : Session) : Session :=
  {| accounts := l; discoveryCompleted := discoveryCompleted s;
     selectedAccount := selectedAccount s; txComposer := txComposer s;
     log := log s |}.

Definition set_discoveryCompleted (b : bool) (s : Session) : Session :=
  {| accounts := accounts s; discoveryCompleted := b;
     selectedAccount := selectedAccount s; txComposer := txComposer s;
     log := log s |}.

Definition set_selectedAccount (a : option Account) (s : Session) : Session :=
  {| accounts := accounts s; discoveryCompleted := discoveryCompleted s;
     selectedAccount := a; txComposer := txComposer s;
     log := log s |}.

Definition set_txComposer (c : option TransactionComposer) (s : Session) : Session :=
  {| accounts := accounts s; discoveryCompleted := discoveryCompleted s;
     selectedAccount := selectedAccount s; txComposer := c;
     log := log s |}.

(** [l[n]] for a number [n]: [undefined] when [n] is [NaN] or out of range. *)
Definition index {A : Type} (l : list A) (n : number) : option A :=
  match n with
  | Int z => if 0 <=? z then l !! Z.to_nat z else None
  | NaN => None
  end.

(** [l[l.length - 1] = x].  On an empty array the assignment creates the
    property [-1] and no element. *)
Definition set_last {A : Type} (l : list A) (x : A) : list A :=
  <[ Nat.pred (length l) := x ]> l.

(** The outcome of one asynchronous function of the method: the session it
    leaves, and the exception if it threw. *)
Definition ran : Type := Session * option thrown.

(** The outcome of [composingCycle]. *)
Inductive Cycle :=
  | Waiting (s : Session)                               (* the UI promise is pending *)
  | Chosen (tx : option BuildTxResult) (s : Session)    (* the promise resolved with [tx] *)
  | Failed (e : thrown) (s : Session).                  (* the promise rejected *)

(** The outcome of [method]. *)
Inductive Outcome :=
  | Pending (s : Session)
  | Resolved (result : gmap string value) (s : Session)
  | RejectedWith (e : thrown) (s : Session)
  | Unmodelled.

(** How many times the log releases the backend. *)
Definition disposals (l : list Effect) : nat :=
  length (List.filter (fun e => match e with Dispose => true | _ => false end) l).

(** The fees the log composes a single transaction at, in order. *)
Definition composed_at (l : list Effect) : list number :=
  omap (fun e => match e with Compose f => Some f | _ => None end) l.

(** ** The workflow: [method] *)

Section Workflow.

Variable UI : UiConstants.

(** Collaborators.  [composeAllLevels], [compose], [feeLevels],
    [customFeeLevel] and [getEstimatedTime] belong to the
    [TransactionComposer] built for the selected account. *)
Variable formatAmount : value -> CoinInfo -> string.
Variable feeLevels : list FeeLevel.
Variable customFeeLevel : FeeLevel.
Variable composeAllLevels : option Account -> list Output -> list BuildTxResult.
Variable compose : option Account -> list Output -> number -> BuildTxResult.
Variable getEstimatedTime : value -> Z.
Variable getReferencedTx : list string -> list Transaction.
Variable signTx :
  option BuildTxResult -> list Transaction -> CoinInfo -> number ->
  settled (gmap string value).            (* [signedtx.message.serialized] *)
Variable sendTransactionHex : value -> settled string.

(** Whether the array [composeAllLevels] resolves with is the array the
    composer keeps in [composed]: an assignment to [composed[i]] then shows
    in [txs[i]]. *)
Variable txs_is_composed : bool.

Variable input : Input.

(* account discovery start callback *)
Definition onStart (newAccount : Account) (allAccounts : list Account) (s : Session)
  : Session :=
  let sAccounts := List.map simpleAccount allAccounts ++ [simpleAccount newAccount] in
  postMessage (SELECT_ACCOUNT sAccounts false) s.

(* account discovery update callback *)
Definition onUpdate (newAccount : Account) (allAccounts : list Account) (s : Session)
  : Session :=
  postMessage (SELECT_ACCOUNT (List.map simpleAccount allAccounts) false)
    (set_accounts allAccounts s).

(* account discovery complete callback *)
Definition onComplete (allAccounts : list Account) (s : Session) : Session :=
  postMessage (SELECT_ACCOUNT (List.map simpleAccount allAccounts) true)
    (set_discoveryCompleted true s).

(* restore discovery (back from fee view or insufficient funds view) *)
Definition restoreDiscovery (s : Session) : Session :=
  let s1 := if is_zero (total input)
            then postMessage (SET_OPERATION "Payment request") s
            else s in
  if discoveryCompleted s1 then onComplete (accounts s1) s1
  else emit (Discover (Some (accounts s1))) s1.

Definition showInsufficientFundsView (s : Session) : Session :=
  restoreDiscovery (emit (ResolveAfter 2000) (postMessage INSUFFICIENT_FUNDS s)).

(** The [txs.forEach] of [onAccountSelection]: [valid] is the flag it sets;
    the callback throws at the first double send-max it meets. *)
Fixpoint check_composed (txs : list BuildTxResult) (valid : bool) : thrown + bool :=
  match txs with
  | [] => inr valid
  | t :: rest =>
      if is_final t then check_composed rest true
      else if is_two_send_max t then inl (Error "Double send max!")
      else check_composed rest valid
  end.

(** The [for ... of txComposer.feeLevels.entries()] loop building [list];
    [None] is the [TypeError] of reading [.fee] of a missing [txs[index]]. *)
Fixpoint fee_list (levels : list FeeLevel) (txs : list BuildTxResult) (i : nat)
  : option (list SimpleBuildTxResult) :=
  match levels with
  | [] => Some []
  | level :: rest =>
      match txs !! i with
      | Some t =>
          match fee_list rest txs (S i) with
          | Some l => Some (simpleTxResult level (getEstimatedTime (fee_of t)) t :: l)
          | None => None
          end
      | None => None
      end
  end.

(** The end of [onAccountSelection], once a final transaction exists: the
    operation label, then the fee selection view.  [txs] is the array as
    the function reads it at that point. *)
Definition show_fees (txs : list BuildTxResult) (s : Session) : ran :=
  let labelled : Session * option thrown :=
    if is_zero (total input) then
      match last txs with
      | Some t =>
          (postMessage
             (SET_OPERATION ("Send " ++ formatAmount (totalSpent_of t) (coinInfo input))) s,
           None)
      | None => (s, Some TypeError)
      end
    else (s, None) in
  match labelled with
  | (s1, Some e) => (s1, Some e)
  | (s1, None) =>
      match fee_list feeLevels txs 0 with
      | Some l => (postMessage (SELECT_FEE l) s1, None)
      | None => (s1, Some TypeError)
      end
  end.

(* handle response from account selection view *)
Definition onAccountSelection (n : number) (s : Session) : ran :=
  let account := index (accounts s) n in
  let s1 := set_selectedAccount account s in
  (* init tx composer *)
  let txs := composeAllLevels account (outputs input) in
  let composer := {| tc_account := account; tc_outputs := outputs input;
                     composed := txs |} in
  let s2 := emit ComposeAllLevels
              (emit (ComposerInit account) (set_txComposer (Some composer) s1)) in
  (* check if there is at least one valid transaction *)
  match check_composed txs false with
  | inl e => (s2, Some e)
  | inr true => show_fees txs s2
  | inr false =>
      (* check with minimal custom fee *)
      let tx := compose account (outputs input) (Int (minFee (coinInfo input))) in
      let s3 := emit (Compose (Int (minFee (coinInfo input)))) s2 in
      if is_final tx then
        (* update last tx *)
        let composed' := set_last txs tx in
        let s4 := set_txComposer
                    (Some {| tc_account := account; tc_outputs := outputs input;
                             composed := composed' |}) s3 in
        show_fees (if txs_is_composed then composed' else txs) s4
      else (showInsufficientFundsView s3, None)
  end.

(** The branch of [composingCycle] for a [RECEIVE_FEE] response, up to the
    point where it either recurses ([inl]) or settles ([inr]). *)
Definition onFeeResponse (responseData : value) (s : Session)
  : Session + Cycle :=
  match get responseData "type" with
  | None => inr (Failed TypeError s)
  | Some type =>
      if is_string type "custom" then
        match txComposer s with
        | None => inr (Failed (Error "TransactionComposer not initialized.") s)
        | Some c =>
            (* rebuild tx with custom fee *)
            let rate := parseInt (default Undefined (get responseData "value")) in
            let tx := compose (tc_account c) (tc_outputs c) rate in
            let c' := {| tc_account := tc_account c; tc_outputs := tc_outputs c;
                         composed := set_last (composed c) tx |} in
            let simple := simpleTxResult customFeeLevel (getEstimatedTime (fee_of tx)) tx in
            (* update fee selection view *)
            inl (postMessage (UPDATE_CUSTOM_FEE simple)
                   (set_txComposer (Some c') (emit (Compose rate) s)))
        end
      else if is_string type "fee" then
        match txComposer s with
        | None => inr (Failed (Error "TransactionComposer not initialized.") s)
        | Some c =>
            inr (Chosen (index (composed c)
                           (parseInt (default Undefined (get responseData "value")))) s)
        end
      else inr (Chosen None s)
  end.

(* cycle of interactions with user *)
Fixpoint composingCycle (events : list Incoming) (s : Session) : Cycle :=
  match events with
  | [] => Waiting s
  | OnStart a all :: rest => composingCycle rest (onStart a all s)
  | OnUpdate a all :: rest => composingCycle rest (onUpdate a all s)
  | OnComplete all :: rest => composingCycle rest (onComplete all s)
  | OnError e :: _ => Failed e s
  | UiResponse event responseData :: rest =>
      (* filter incoming UI promise *)
      if negb (String.eqb event (RECEIVE_ACCOUNT UI))
         && negb (String.eqb event (RECEIVE_FEE UI))
         && negb (String.eqb event (CHANGE_ACCOUNT UI))
      then composingCycle rest s
      else if String.eqb event (RECEIVE_ACCOUNT UI) then
        match onAccountSelection (parseInt responseData) (emit StopDiscovering s) with
        | (s', None) => composingCycle rest s'
        | (s', Some e) => Failed e s'
        end
      else if String.eqb event (CHANGE_ACCOUNT UI) then
        composingCycle rest (restoreDiscovery s)
      else
        match onFeeResponse responseData s with
        | inl s' => composingCycle rest s'
        | inr c => c
        end
  end.

(** [tx.transaction.inputs]; [None] is the [TypeError] of the read. *)
Definition transaction_inputs (tx : option BuildTxResult) : option (list string) :=
  match tx with
  | Some (TxFinal _ t) => Some (inputs t)
  | _ => None
  end.

(** The end of [method], from the transaction [composingCycle] resolved
    with: referenced transactions, signing, the optional push, and the
    release of the backend. *)
Definition finish (tx : option BuildTxResult) (s : Session) : Outcome :=
  let referenced : option (list Transaction * Session) :=
    match txComposer s with
    | Some _ =>
        match transaction_inputs tx with
        | Some ins => Some (getReferencedTx ins, emit (GetReferencedTx ins) s)
        | None => None
        end
    | None => Some ([], s)
    end in
  match referenced with
  | None => RejectedWith TypeError s
  | Some (refTx, s1) =>
      (* sign tx with device *)
      let s2 := emit (SignTx tx (locktime input)) s1 in
      match signTx tx refTx (coinInfo input) (locktime input) with
      | Rejected reason => RejectedWith (Thrown reason) s2
      | Fulfilled serialized =>
          if pushTransaction input then
            let hex := default Undefined (serialized !! "serialized_tx") in
            let s3 := emit (SendTransactionHex hex) s2 in
            match sendTransactionHex hex with
            | Rejected error =>
                match get error "message" with
                | Some message =>
                    let obj :=
                      spread {[ "custom" := Bool true; "error" := message ]}
                        serialized in
                    RejectedWith (Thrown (Obj obj)) s3
                | None => RejectedWith TypeError s3
                end
            | Fulfilled txId =>
                Resolved (spread {[ "txid" := Str txId ]} serialized) (emit Dispose s3)
            end
          else
            Resolved (spread {[ "txid" := Undefined ]} serialized) (emit Dispose s2)
      end
  end.

(** The session when [composingCycle] is first called, the popup being
    open: the operation label if [input.total > 0] ([positive]), the empty
    account selection view, the backend, and the discovery started. *)
Definition start (positive : bool) : Session :=
  let s0 := {| accounts := []; discoveryCompleted := false;
               selectedAccount := None; txComposer := None; log := [] |} in
  (* update operation label in popup *)
  let s1 := if positive
            then postMessage
                   (SET_OPERATION ("Send " ++ formatAmount (total input) (coinInfo input)))
                   s0
            else s0 in
  (* request account selection view *)
  let s2 := postMessage (SELECT_ACCOUNT [] false) s1 in
  (* create backend instance *)
  let s3 := emit (CreateBackend (coin_name (coinInfo input))) s2 in
  (* start discovering *)
  emit (Discover None) s3.

Definition method (events : list Incoming) : Outcome :=
  match gt_zero (total input) with
  | None => Unmodelled
  | Some positive =>
      match composingCycle events (start positive) with
      | Waiting s => Pending s
      | Failed e s => RejectedWith e s
      | Chosen tx s => finish tx s
      end
  end.

End Workflow.

(** ** Sample collaborators

    Concrete collaborators, to run the embedding on concrete requests.  The
    coin table knows Bitcoin (address versions 0 and 5); the two addresses
    are a pay-to-public-key-hash and a pay-to-script-hash address of
    Bitcoin, which decode to those versions; no other address decodes.
    [stringToHex] writes two digits for each character; no request below
    has a text payload, so none reaches it. *)

Module Sample.

Definition UI : UiConstants :=
  {| RECEIVE_ACCOUNT := "ui-receive_account";
     RECEIVE_FEE := "ui-receive_fee";
     CHANGE_ACCOUNT := "ui-change_account" |}.

Definition bitcoin : CoinInfo :=
  {| coin_name := "Bitcoin"; segwit := true; minFee := 1;
     network := {| pubKeyHash := 0; scriptHash := 5 |} |}.

Definition checkPermissions (l : list string) : list string := l.

Definition getCoinInfoByCurrency (currency : string) : option CoinInfo :=
  if String.eqb currency "Bitcoin" then Some bitcoin else None.

Definition p2pkh_address : string := "1A1zP1eP5QGefi2DMPTfTL5SLmv7DivfNa".
Definition p2sh_address : string := "3J98t1WpEZ73CNmQviecrnyiWrnqRhWNLy".

Definition fromBase58Check (address : string) : option Z :=
  if String.eqb address p2pkh_address then Some 0
  else if String.eqb address p2sh_address then Some 5
  else None.

Definition hex_digit (n : N) : ascii :=
  ascii_of_N (if (n <? 10)%N then 48 + n else 87 + n)%N.

Fixpoint stringToHex (s : string) : string :=
  match s with
  | EmptyString => EmptyString
  | String c r =>
      String (hex_digit (N_of_ascii c / 16)) (String (hex_digit (N_of_ascii c mod 16))
        (stringToHex r))
  end.

Definition params : value -> completion MethodParams :=
  params checkPermissions getCoinInfoByCurrency stringToHex fromBase58Check.

Definition formatAmount (v : value) (coin : CoinInfo) : string :=
  to_string v ++ " sat".

Definition feeLevels : list FeeLevel :=
  [ {| level_name := "High" |}; {| level_name := "Normal" |};
    {| level_name := "Custom" |} ].

Definition customFeeLevel : FeeLevel := {| level_name := "Custom" |}.

Definition getEstimatedTime (fee : value) : Z := 10.

Definition getReferencedTx (ins : list string) : list Transaction :=
  List.map (fun _ => {| inputs := [] |}) ins.

(** A run of [method] in which the composer answers [txs] for all levels and
    [at_fee] for a single fee, the device answers [signed] and the backend
    answers [sent]. *)
Definition method (txs : list BuildTxResult) (at_fee : number -> BuildTxResult)
    (signed : settled (gmap string value)) (sent : settled string)
    (input : Input) (events : list Incoming) : Outcome :=
  method UI formatAmount feeLevels customFeeLevel
    (fun _ _ => txs) (fun _ _ => at_fee) getEstimatedTime getReferencedTx
    (fun _ _ _ _ => signed) (fun _ => sent) true input events.

Definition onAccountSelection (txs : list BuildTxResult) (at_fee : number -> BuildTxResult)
    (input : Input) : number -> Session -> ran :=
  onAccountSelection formatAmount feeLevels (fun _ _ => txs) (fun _ _ => at_fee)
    getEstimatedTime true input.

Definition composingCycle (txs : list BuildTxResult) (at_fee : number -> BuildTxResult)
    (input : Input) : list Incoming -> Session -> Cycle :=
  composingCycle UI formatAmount feeLevels customFeeLevel
    (fun _ _ => txs) (fun _ _ => at_fee) getEstimatedTime true input.

(** An account with funds, and what the composer makes of it. *)
Definition account0 : Account :=
  {| id := 0; account_segwit := true;
     info := Some {| balance := 100000; transactions := 1 |} |}.

Definition final (rate : Z) : BuildTxResult :=
  TxFinal {| totalSpent := 50000; fee := 226 * rate; feePerByte := rate; bytes := 226 |}
          {| inputs := ["prev"%string] |}.

Definition serialized : gmap string value :=
  {[ "serialized_tx" := Str "0100beef"; "signatures" := Arr [Str "3045"] ]}.

(** A request for one payment, pushed after signing. *)
Definition payment (push : bool) : Input :=
  {| outputs := [Complete p2pkh_address (Int 50000)];
     locktime := Int 0; coinInfo := bitcoin; total := Num (Int 50000);
     pushTransaction := push |}.

(** Discovery finds [account0]; the user selects it, then the first fee. *)
Definition select_and_sign : list Incoming :=
  [ OnUpdate account0 [account0]; OnComplete [account0];
    UiResponse "ui-receive_account" (Num (Int 0));
    UiResponse "ui-receive_fee" (Obj {[ "type" := Str "fee"; "value" := Str "0" ]}) ].

End Sample.

(** ** Vocabulary of the properties *)

(** [raw.k] on a request object. *)
Definition field (props : gmap string value) (k : string) : value :=
  default Undefined (props !! k).

(** The name [params] looks the coin up by. *)
Definition requested_coin (props : gmap string value) : string :=
  match field props "coin" with Str c => c | _ => "Bitcoin" end.

(** The condition under which [params] throws on [raw.locktime]. *)
Definition locktime_rejected (props : gmap string value) : bool :=
  truthy (field props "locktime") && isNaN (parseInt (field props "locktime")).

Definition is_send_max (o : Output) : bool :=
  match o with SendMax _ => true | _ => false end.

(** A raw output that is parsed as a complete one declares a number that is
    not negative as its amount. *)
Definition declares_amount (out : value) : bool :=
  match get out "type" with
  | Some type =>
      if is_string type "opreturn" || is_string type "send-max" then true
      else match get out "amount" with
           | Some (Num (Int z)) => 0 <=? z
           | _ => false
           end
  | None => true
  end.

(** What the loop over the outputs keeps true when every amount is declared:
    the total is a number that is not negative, and the flag tells whether
    a send-max output was pushed. *)
Definition total_inv (acc : Parsed) : Prop :=
  (exists t, p_total acc = Num (Int t) /\ 0 <= t)
  /\ p_hasSendMax acc = existsb is_send_max (p_outputs acc).

(** The messages of the errors thrown while parsing the outputs start with
    an [O] or an [I]. *)
Definition output_message (m : string) : Prop :=
  exists r, m = String "O" r \/ m = String "I" r.

(** What [params] does with a request object once the coin is found and
    the lock time has passed. *)
Definition after_locktime
    (checkPermissions : list string -> list string)
    (stringToHex : string -> string) (fromBase58Check : string -> option Z)
    (props : gmap string value) (coin : CoinInfo)
  : completion MethodParams :=
  match field props "outputs" with
  | Arr outs =>
      acc ← parse_outputs stringToHex fromBase58Check coin (length outs)
              {| p_total := Num (Int 0); p_hasSendMax := false; p_outputs := [] |}
              outs;
      total ← reset_total acc;
      Return {|
        responseID := field props "id";
        name := "composetx";
        useUi := true;
        useDevice := true;
        requiredFirmware := "1.5.0";
        requiredPermissions := checkPermissions ["write"%string];
        input := {| outputs := p_outputs acc;
                    locktime := parseInt (field props "locktime");
                    coinInfo := coin;
                    total := total;
                    pushTransaction :=
                      match field props "push" with Bool b => b | _ => false end |};
      |}
  | _ => Throw (Error "Outputs is not an Array")
  end.

(** A response of the popup that [composingCycle] does not handle. *)
Definition stray (UI : UiConstants) (ev : Incoming) : Prop :=
  exists event data,
    ev = UiResponse event data
    /\ event <> RECEIVE_ACCOUNT UI
    /\ event <> RECEIVE_FEE UI
    /\ event <> CHANGE_ACCOUNT UI.

(** What [restoreDiscovery] adds to the log. *)
Definition restore_log (input : Input) (s : Session) : list Effect :=
  (if is_zero (total input) then [PostMessage (SET_OPERATION "Payment request")] else [])
  ++ [ if discoveryCompleted s
       then PostMessage (SELECT_ACCOUNT (List.map simpleAccount (accounts s)) true)
       else Discover (Some (accounts s)) ].

(** Requests and responses used in the examples. *)
Module Example.

Definition send_max : value :=
  Obj {[ "type" := Str "send-max"; "address" := Str Sample.p2sh_address ]}.

Definition complete (amount : value) : value :=
  Obj {[ "address" := Str Sample.p2pkh_address; "amount" := amount ]}.

Definition opreturn (data : string) : value :=
  Obj {[ "type" := Str "opreturn"; "data" := Str data ]}.

Definition request (outs : list value) : gmap string value :=
  {[ "outputs" := Arr outs ]}.

Definition network_error : value := Obj {[ "message" := Str "Network error" ]}.

Definition funded : list BuildTxResult :=
  [Sample.final 50; Sample.final 20; Sample.final 1].

Definition unfunded : list BuildTxResult :=
  [TxError "NOT-ENOUGH-FUNDS"; TxError "NOT-ENOUGH-FUNDS"; TxError "NOT-ENOUGH-FUNDS"].

(** Discovery finds [Sample.account0] and completes. *)
Definition discovery : list Incoming :=
  [ OnUpdate Sample.account0 [Sample.account0]; OnComplete [Sample.account0] ].

Definition with_double_send_max : list BuildTxResult :=
  [TxError "NOT-ENOUGH-FUNDS"; TxError "TWO-SEND-MAX"].

(** The session in which the loop waits once discovery has found
    [Sample.account0]. *)
Definition discovered : Session :=
  {| accounts := [Sample.account0]; discoveryCompleted := true;
     selectedAccount := None; txComposer := None; log := [] |}.

End Example.

(** ** Vocabulary of the further properties *)


(** A raw output that [params] parses as a complete one: it has a [type],
    which is neither ['opreturn'] nor ['send-max']. *)
Definition raw_complete (out : value) : bool :=
  match get out "type" with
  | Some type => negb (is_string type "opreturn") && negb (is_string type "send-max")
  | None => false
  end.

(** [out.amount] of a raw output that is an object. *)
Definition raw_amount (out : value) : value :=
  default Undefined (get out "amount").



(** A raw output parsed as a complete one whose amount is a string. *)
Definition string_amount (out : value) : bool :=
  raw_complete out && match raw_amount out with Str _ => true | _ => false end.

Definition is_string_value (v : value) : bool :=
  match v with Str _ => true | _ => false end.

(** The digits of a decimal numeral, most significant first. *)
Fixpoint uint_digits (d : Decimal.uint) : list Z :=
  match d with
  | Decimal.Nil => []
  | Decimal.D0 d => 0 :: uint_digits d
  | Decimal.D1 d => 1 :: uint_digits d
  | Decimal.D2 d => 2 :: uint_digits d
  | Decimal.D3 d => 3 :: uint_digits d
  | Decimal.D4 d => 4 :: uint_digits d
  | Decimal.D5 d => 5 :: uint_digits d
  | Decimal.D6 d => 6 :: uint_digits d
  | Decimal.D7 d => 7 :: uint_digits d
  | Decimal.D8 d => 8 :: uint_digits d
  | Decimal.D9 d => 9 :: uint_digits d
  end.

(** The parsed output [o] is what [params] makes of the raw output [out]:
    the same type, the payload or the address of [out], and for a complete
    output the amount [parseInt] reads. *)
Definition parsed_as (out : value) (o : Output) : Prop :=
  match get out "type" with
  | Some type =>
      if is_string type "opreturn" then exists dataHex, o = OpReturn dataHex
      else if is_string type "send-max" then
        o = SendMax (default Undefined (get out "address"))
      else
        exists address,
          get out "address" = Some (Str address)
          /\ o = Complete address (parseInt (raw_amount out))
  | None => False
  end.

(** The calls the event loop makes: it posts messages, drives the discovery
    and the composer, and waits; it does not touch the backend or the
    device. *)
Definition loop_effect (e : Effect) : bool :=
  match e with
  | PostMessage _ | Discover _ | StopDiscovering | ResolveAfter _
  | ComposerInit _ | ComposeAllLevels | Compose _ => true
  | CreateBackend _ | GetReferencedTx _ | SignTx _ _ | SendTransactionHex _
  | Dispose => false
  end.

(** [s'] is [s] after some calls of the event loop. *)
Definition grows (s s' : Session) : Prop :=
  exists l, log s' = log s ++ l /\ forallb loop_effect l = true.

Definition cycle_session (c : Cycle) : Session :=
  match c with Waiting s | Chosen _ s | Failed _ s => s end.

Definition outcome_session (o : Outcome) : option Session :=
  match o with
  | Pending s | Resolved _ s | RejectedWith _ s => Some s
  | Unmodelled => None
  end.

(** The transactions the log sends to the backend, and the ones it hands
    to the device. *)
Definition sent (l : list Effect) : list value :=
  omap (fun e => match e with SendTransactionHex hex => Some hex | _ => None end) l.

Definition signed (l : list Effect) : list (option BuildTxResult) :=
  omap (fun e => match e with SignTx tx _ => Some tx | _ => None end) l.

Definition backends (l : list Effect) : list string :=
  omap (fun e => match e with CreateBackend coin => Some coin | _ => None end) l.




(** A response of the fee view that edits the custom fee: its fee rate. *)
Definition custom_rate (UI : UiConstants) (ev : Incoming) : option number :=
  match ev with
  | UiResponse event data =>
      if String.eqb event (RECEIVE_FEE UI)
         && negb (String.eqb event (RECEIVE_ACCOUNT UI))
         && negb (String.eqb event (CHANGE_ACCOUNT UI))
      then match get data "type" with
           | Some type =>
               if is_string type "custom"
               then Some (parseInt (default Undefined (get data "value")))
               else None
           | None => None
           end
      else None
  | _ => None
  end.

Ltac unfold_onFeeResponse := unfold onFeeResponse in *.

(** Further requests and sessions for the examples. *)
Module Cases.

Definition paying (amounts : list value) : gmap string value :=
  Example.request (List.map Example.complete amounts).

(** The session once [Sample.account0] was selected and the composer
    answered [Example.funded]. *)
Definition selected : Session :=
  {| accounts := [Sample.account0]; discoveryCompleted := true;
     selectedAccount := Some Sample.account0;
     txComposer := Some {| tc_account := Some Sample.account0;
                           tc_outputs := outputs (Sample.payment false);
                           composed := Example.funded |};
     log := [] |}.

Definition custom_fee (rate : string) : Incoming :=
  UiResponse "ui-receive_fee" (Obj {[ "type" := Str "custom"; "value" := Str rate ]}).

Definition choose_fee (i : string) : Incoming :=
  UiResponse "ui-receive_fee" (Obj {[ "type" := Str "fee"; "value" := Str i ]}).

Definition select_account (i : Z) : Incoming :=
  UiResponse "ui-receive_account" (Num (Int i)).

Definition refused : value := Obj {[ "message" := Str "Cancelled" ]}.

End Cases.

(** ** Tactics *)

Ltac unfold_output :=
  unfold parse_output, parse_opreturn, check_address, read, throw_if,
    mbind, completion_bind in *.

Ltac unfold_params :=
  unfold params, reset_total, read, throw_if, mbind, completion_bind in *.

Ltac unfold_after_locktime :=
  unfold after_locktime, reset_total, mbind, completion_bind in *.

Ltac unfold_show_fees := unfold show_fees in *.

Ltac unfold_onAccountSelection := unfold onAccountSelection in *.

Ltac unfold_selection :=
  unfold onAccountSelection, showInsufficientFundsView, restoreDiscovery,
    onComplete, postMessage in *.

Ltac unfold_finish := unfold method, finish, transaction_inputs, spread in *.

(** Case analysis on whatever a [match] of the goal or of a hypothesis
    inspects, until none is left. *)
Ltac run :=
  repeat (simplify_eq/=;
          match goal with
          | H : context [match ?x with _ => _ end] |- _ => destruct x eqn:?
          | |- context [match ?x with _ => _ end] => destruct x eqn:?
          end);
  simplify_eq/=.

(** ** The validator *)

Section ValidatorFacts.

Variable checkPermissions : list string -> list string.
Variable getCoinInfoByCurrency : string -> option CoinInfo.
Variable stringToHex : string -> string.
Variable fromBase58Check : string -> option Z.

#[local] Abbreviation params :=
  (params checkPermissions getCoinInfoByCurrency stringToHex fromBase58Check).
#[local] Abbreviation parse_output := (parse_output stringToHex fromBase58Check).
#[local] Abbreviation parse_outputs := (parse_outputs stringToHex fromBase58Check).
#[local] Abbreviation after_locktime :=
  (after_locktime checkPermissions stringToHex fromBase58Check).

Lemma parse_output_message coin n acc out m :
  parse_output coin n acc out = Throw (Error m) -> output_message m.
Proof.
  unfold output_message. unfold_output.
  intros H. run; eauto.
Qed.

Lemma parse_outputs_message coin n outs acc m :
  parse_outputs coin n acc outs = Throw (Error m) -> output_message m.
Proof.
  revert acc. induction outs as [|out outs IH]; intros acc; simpl; [discriminate|].
  destruct (parse_output coin n acc out) eqn:E; simpl; intros H.
  - eauto.
  - simplify_eq. eauto using parse_output_message.
  - discriminate.
Qed.

Lemma re_test_six s : re_test s = true -> String.length s = 6%nat.
Proof. unfold re_test. intros [H _]%andb_prop. apply Z.eqb_eq in H. lia. Qed.

(** A sole OP_RETURN output with a hexadecimal payload passes exactly when
    the payload matches the pattern, that is, has six digits. *)
Lemma parse_opreturn_hex props s :
  props !! "data" = Some (Str s) -> s <> ""%string ->
  is_string (field props "dataFormat") "text" = false ->
  parse_opreturn stringToHex 1 (Obj props) =
    if re_test s then Return (OpReturn (Str s))
    else Throw (Error "OP_RETURN data is not valid hexadecimal").
Proof.
  intros Hdata Hne Htext. unfold field in Htext. unfold_output. simpl.
  rewrite Hdata. simpl.
  destruct s as [|c s]; [contradiction|]. simpl.
  rewrite Htext, andb_false_r.
  destruct (re_test (String c s)) eqn:Hre; simpl; [|reflexivity].
  apply re_test_six in Hre. simpl in Hre.
  replace (80 * 2 <? Z.of_nat (S (String.length s))) with false; [reflexivity|].
  symmetry. apply Z.ltb_ge. lia.
Qed.

(** Each turn of the loop pushes one output. *)
Lemma parse_output_length coin n acc out acc' :
  parse_output coin n acc out = Return acc' ->
  length (p_outputs acc') = S (length (p_outputs acc)).
Proof.
  unfold_output. intros H.
  run; rewrite length_app; simpl; lia.
Qed.

Lemma parse_outputs_length coin n outs acc acc' :
  parse_outputs coin n acc outs = Return acc' ->
  length (p_outputs acc') = (length (p_outputs acc) + length outs)%nat.
Proof.
  revert acc. induction outs as [|out outs IH]; intros acc; simpl.
  - intros [= ->]. lia.
  - destruct (parse_output coin n acc out) eqn:E; simpl; try discriminate.
    intros H. apply IH in H. apply parse_output_length in E. lia.
Qed.

Lemma parse_output_inv coin n acc out acc' :
  total_inv acc -> declares_amount out = true ->
  parse_output coin n acc out = Return acc' -> total_inv acc'.
Proof.
  unfold total_inv, declares_amount.
  intros [(t & Ht & Hpos) Hflag] Hdecl. unfold_output. intros H.
  destruct (get out "type") as [type|] eqn:Etype; [|discriminate].
  destruct (is_string type "opreturn") eqn:Eop.
  - run; (split; [eauto|]); rewrite existsb_app; simpl;
      rewrite !orb_false_r; assumption.
  - destruct (is_string type "send-max") eqn:Emax.
    + run. split; [eauto|]. rewrite existsb_app. simpl. rewrite orb_true_r.
      reflexivity.
    + simpl in Hdecl.
      destruct (get out "amount") as [[| | |[|z]| | |]|] eqn:Eamount;
        try discriminate.
      apply Z.leb_le in Hdecl.
      run. rewrite Ht. split.
      * exists (t + z). split; [reflexivity|lia].
      * rewrite existsb_app. simpl. rewrite !orb_false_r. assumption.
Qed.

Lemma parse_outputs_inv coin n outs acc acc' :
  total_inv acc -> forallb declares_amount outs = true ->
  parse_outputs coin n acc outs = Return acc' -> total_inv acc'.
Proof.
  revert acc. induction outs as [|out outs IH]; intros acc Hinv; simpl.
  - intros _ [= <-]. assumption.
  - intros [Hout Houts]%andb_prop.
    destruct (parse_output coin n acc out) eqn:E; simpl; try discriminate.
    eauto using parse_output_inv.
Qed.

(** A request object is read without a [TypeError]. *)
Lemma params_object props :
  params (Obj props) =
    match getCoinInfoByCurrency (requested_coin props) with
    | None => Throw (Error ("Coin " ++ to_string (field props "coin") ++ " not found"))
    | Some coin =>
        if locktime_rejected props then Throw (Error "Locktime is not a number")
        else after_locktime props coin
    end.
Proof.
  unfold_after_locktime. unfold requested_coin, locktime_rejected, field.
  unfold_params. simpl.
  destruct (getCoinInfoByCurrency _); [|reflexivity].
  destruct (truthy _ && isNaN _); [reflexivity|].
  destruct (default Undefined (props !! "outputs")); reflexivity.
Qed.

Lemma params_after_locktime props coin :
  getCoinInfoByCurrency (requested_coin props) = Some coin ->
  locktime_rejected props = false ->
  params (Obj props) = after_locktime props coin.
Proof. intros Hcoin Hlock. rewrite params_object, Hcoin, Hlock. reflexivity. Qed.

Lemma field_insert_ne props k k' v :
  k <> k' -> field (<[k := v]> props) k' = field props k'.
Proof. intros H. unfold field. rewrite lookup_insert_ne by assumption. reflexivity. Qed.

(** The coin error is the only one whose message starts with [Coin], and the
    lock time error the only one that starts with an [L]. *)
Lemma params_error props m :
  params (Obj props) = Throw (Error m) ->
  match getCoinInfoByCurrency (requested_coin props) with
  | None => m = ("Coin " ++ to_string (field props "coin") ++ " not found")%string
  | Some _ =>
      if locktime_rejected props then m = "Locktime is not a number"%string
      else output_message m
  end.
Proof.
  destruct (getCoinInfoByCurrency (requested_coin props)) as [coin|] eqn:Hcoin.
  - destruct (locktime_rejected props) eqn:Hlock.
    + rewrite params_object, Hcoin, Hlock. congruence.
    + rewrite (params_after_locktime _ _ Hcoin Hlock).
      unfold_after_locktime. intros H.
      destruct (field props "outputs"); simplify_eq;
        try (eexists; left; reflexivity).
      destruct (parse_outputs coin _ _ _) eqn:E; simplify_eq.
      * destruct (gt_zero (p_total a)); discriminate.
      * eauto using parse_outputs_message.
  - rewrite params_object, Hcoin. congruence.
Qed.

(** C2, as amended.  For every request the validator accepts that contains
    a send-max output (it accepts no more than one), and in which every
    complete output declares a number that is not negative as its amount,
    the total of the resulting request is 0. *)
Theorem send_max_total_is_zero props outs mp :
  props !! "outputs" = Some (Arr outs) ->
  forallb declares_amount outs = true ->
  params (Obj props) = Return mp ->
  existsb is_send_max (outputs (input mp)) = true ->
  total (input mp) = Num (Int 0).
Proof.
  intros Houts Hdecl Hret Hmax.
  assert (Hinv0 : total_inv {| p_total := Num (Int 0); p_hasSendMax := false;
                               p_outputs := [] |}).
  { split; [exists 0; split; [reflexivity|lia] | reflexivity]. }
  revert Hret. rewrite params_object.
  destruct (getCoinInfoByCurrency _) as [coin|]; [|discriminate].
  destruct (locktime_rejected props); [discriminate|].
  unfold_after_locktime. unfold field. rewrite Houts. simpl.
  destruct (parse_outputs coin _ _ outs) as [acc| |] eqn:E; try discriminate.
  pose proof (parse_outputs_inv _ _ _ _ _ Hinv0 Hdecl E) as [(t & Ht & Hpos) Hflag].
  unfold gt_zero. rewrite Ht. simpl. intros [= <-]. simpl in *.
  rewrite Hflag, Hmax, andb_true_r.
  destruct (0 <? t) eqn:Hlt; [reflexivity|].
  apply Z.ltb_ge in Hlt. f_equal. f_equal. lia.
Qed.

(** C4, as amended.  Once the coin is found and the lock time has passed:
    a request whose [outputs] is not an array fails with
    [Outputs is not an Array]; an empty array is accepted, with no output
    and a total of 0; a request that is accepted has one parsed output for
    each element of the array. *)
Theorem outputs_must_be_an_array props coin :
  getCoinInfoByCurrency (requested_coin props) = Some coin ->
  locktime_rejected props = false ->
  match field props "outputs" with
  | Arr [] =>
      exists mp, params (Obj props) = Return mp
                 /\ outputs (input mp) = [] /\ total (input mp) = Num (Int 0)
  | Arr outs =>
      forall mp, params (Obj props) = Return mp ->
                 length (outputs (input mp)) = length outs
  | _ => params (Obj props) = Throw (Error "Outputs is not an Array")
  end.
Proof.
  intros Hcoin Hlock. rewrite (params_after_locktime _ _ Hcoin Hlock).
  unfold_after_locktime.
  destruct (field props "outputs") as [| | | | |outs|]; try reflexivity.
  destruct outs as [|out outs].
  - eexists. split; [reflexivity|]. split; reflexivity.
  - intros mp.
    destruct (parse_outputs coin _ _ (out :: outs)) as [acc| |] eqn:E;
      try discriminate.
    destruct (gt_zero (p_total acc)); try discriminate.
    intros [= <-]. simpl. apply parse_outputs_length in E. exact E.
Qed.

(** C9.  For every request whose [coin] is absent or is not a string, the
    validator looks up [Bitcoin].  If that name is known, the request is
    validated exactly as if [coin] were ['Bitcoin']: it does not fail with
    a coin error, and an accepted request carries the parameters of
    Bitcoin.  If it is not, the validator throws the coin error. *)
Theorem missing_coin_defaults_to_Bitcoin props :
  typeof (field props "coin") <> "string"%string ->
  match getCoinInfoByCurrency "Bitcoin" with
  | Some coin =>
      params (Obj props) = params (Obj (<["coin" := Str "Bitcoin"]> props))
      /\ (forall m, params (Obj props) <> Throw (Error ("Coin " ++ m)))
      /\ (forall mp, params (Obj props) = Return mp -> coinInfo (input mp) = coin)
  | None =>
      params (Obj props) =
        Throw (Error ("Coin " ++ to_string (field props "coin") ++ " not found"))
  end.
Proof.
  intros Hnot.
  assert (Hname : requested_coin props = "Bitcoin"%string).
  { unfold requested_coin. destruct (field props "coin"); try reflexivity.
    contradiction Hnot. reflexivity. }
  destruct (getCoinInfoByCurrency "Bitcoin") as [coin|] eqn:Hcoin.
  - split; [|split].
    + rewrite !params_object. unfold requested_coin at 2. unfold field at 2.
      rewrite lookup_insert_eq. simpl. rewrite Hname, Hcoin.
      unfold_after_locktime. unfold locktime_rejected.
      rewrite !field_insert_ne by discriminate. reflexivity.
    + intros m H. apply params_error in H. rewrite Hname, Hcoin in H.
      destruct (locktime_rejected props); [discriminate|].
      destruct H as (r & [H|H]); discriminate.
    + intros mp. rewrite params_object, Hname, Hcoin.
      unfold_after_locktime.
      intros H. run. reflexivity.
  - rewrite params_object, Hname, Hcoin. reflexivity.
Qed.

(** C10, as amended.  The validator throws [Locktime is not a number] only
    for a lock time that is truthy and does not parse as an integer.  When
    the lock time is absent or falsy, an accepted request has the lock time
    [NaN], except for the number 0, whose lock time is 0. *)
Theorem falsy_locktime props :
  (params (Obj props) = Throw (Error "Locktime is not a number") ->
   locktime_rejected props = true)
  /\ (truthy (field props "locktime") = false ->
      forall mp, params (Obj props) = Return mp ->
        locktime (input mp) =
          if is_zero (field props "locktime") then Int 0 else NaN).
Proof.
  split.
  - intros H. apply params_error in H.
    destruct (getCoinInfoByCurrency _); [|discriminate].
    destruct (locktime_rejected props); [reflexivity|].
    destruct H as (r & [H|H]); discriminate.
  - intros Hfalsy mp H.
    assert (Hlock : locktime (input mp) = parseInt (field props "locktime")).
    { revert H. rewrite params_object.
      unfold_after_locktime.
      intros H. run. reflexivity. }
    rewrite Hlock.
    destruct (field props "locktime") as [| |[|]|[|z]|s| |]; try discriminate;
      try reflexivity.
    + simpl in Hfalsy. apply negb_false_iff, Z.eqb_eq in Hfalsy. subst z.
      reflexivity.
    + simpl in Hfalsy. apply negb_false_iff, String.eqb_eq in Hfalsy. subst s.
      reflexivity.
Qed.

End ValidatorFacts.

(** ** The workflow *)

Section WorkflowFacts.

Variable UI : UiConstants.
Variable formatAmount : value -> CoinInfo -> string.
Variable feeLevels : list FeeLevel.
Variable customFeeLevel : FeeLevel.
Variable composeAllLevels : option Account -> list Output -> list BuildTxResult.
Variable compose : option Account -> list Output -> number -> BuildTxResult.
Variable getEstimatedTime : value -> Z.
Variable getReferencedTx : list string -> list Transaction.
Variable signTx :
  option BuildTxResult -> list Transaction -> CoinInfo -> number ->
  settled (gmap string value).
Variable sendTransactionHex : value -> settled string.
Variable txs_is_composed : bool.
Variable input : Input.

#[local] Abbreviation restoreDiscovery := (restoreDiscovery input).
#[local] Abbreviation show_fees :=
  (show_fees formatAmount feeLevels getEstimatedTime input).
#[local] Abbreviation onAccountSelection :=
  (onAccountSelection formatAmount feeLevels composeAllLevels compose
     getEstimatedTime txs_is_composed input).
#[local] Abbreviation composingCycle :=
  (composingCycle UI formatAmount feeLevels customFeeLevel composeAllLevels compose
     getEstimatedTime txs_is_composed input).
#[local] Abbreviation finish :=
  (finish getReferencedTx signTx sendTransactionHex input).
#[local] Abbreviation start := (start formatAmount input).
#[local] Abbreviation method :=
  (method UI formatAmount feeLevels customFeeLevel composeAllLevels compose
     getEstimatedTime getReferencedTx signTx sendTransactionHex txs_is_composed input).

(** *** The check of the composed transactions *)

Lemma check_composed_throws txs valid :
  existsb is_two_send_max txs = true ->
  check_composed txs valid = inl (Error "Double send max!").
Proof.
  revert valid. induction txs as [|t txs IH]; intros valid; simpl; [discriminate|].
  destruct t as [e|a|a tr]; simpl; auto.
  destruct (String.eqb e "TWO-SEND-MAX"); simpl; auto.
Qed.

Lemma check_composed_valid txs valid :
  existsb is_two_send_max txs = false ->
  check_composed txs valid = inr (valid || existsb is_final txs).
Proof.
  revert valid. induction txs as [|t txs IH]; intros valid; simpl.
  - rewrite orb_false_r. reflexivity.
  - destruct t as [e|a|a tr]; simpl.
    + destruct (String.eqb e "TWO-SEND-MAX"); simpl; [discriminate|]. apply IH.
    + apply IH.
    + intros H. rewrite IH by assumption. rewrite orb_true_r. reflexivity.
Qed.

(** *** The fee selection view *)

Lemma fee_list_defined levels txs i :
  (i + length levels <= length txs)%nat ->
  exists l, fee_list getEstimatedTime levels txs i = Some l.
Proof.
  revert i. induction levels as [|level levels IH]; intros i Hlen; simpl in *.
  - eauto.
  - destruct (lookup_lt_is_Some_2 txs i) as [t ->]; [lia|].
    destruct (IH (S i)) as [l ->]; [lia|]. eauto.
Qed.

Lemma show_fees_posts txs s :
  (length feeLevels <= length txs)%nat -> txs <> [] ->
  exists t l,
    show_fees txs s =
      (postMessage (SELECT_FEE l)
         (if is_zero (total input)
          then postMessage
                 (SET_OPERATION ("Send " ++ formatAmount (totalSpent_of t) (coinInfo input)))
                 s
          else s),
       None).
Proof.
  intros Hlen Hne. unfold_show_fees.
  destruct (fee_list_defined feeLevels txs 0) as [l Hl]; [lia|]. rewrite Hl.
  destruct (last txs) as [t|] eqn:Hlast.
  - exists t, l. destruct (is_zero (total input)); reflexivity.
  - apply last_None in Hlast. contradiction.
Qed.

(** Whatever it ends in, the fee selection view composes nothing and leaves
    the composer as it is. *)
Lemma show_fees_log txs s :
  composed_at (log (show_fees txs s).1) = composed_at (log s)
  /\ txComposer (show_fees txs s).1 = txComposer s.
Proof.
  unfold_show_fees. unfold composed_at.
  run; rewrite ?omap_app; simpl; rewrite ?app_nil_r; auto.
Qed.

Lemma restoreDiscovery_log s :
  log (restoreDiscovery s) = log s ++ restore_log input s
  /\ accounts (restoreDiscovery s) = accounts s
  /\ discoveryCompleted (restoreDiscovery s) = discoveryCompleted s.
Proof.
  unfold restore_log. unfold_selection.
  destruct (is_zero (total input)); simpl;
    destruct (discoveryCompleted s) eqn:E; simpl;
    rewrite <- ?app_assoc; auto.
Qed.

(** *** The event loop *)

(** A response to the fee view either lets the loop go on or settles its
    promise; it never leaves it pending. *)
Lemma onFeeResponse_settles
    (level : FeeLevel) (f : option Account -> list Output -> number -> BuildTxResult)
    (g : value -> Z) data s :
  (exists s1, onFeeResponse level f g data s = inl s1)
  \/ (exists c, onFeeResponse level f g data s = inr c /\ forall s', c <> Waiting s').
Proof.
  unfold onFeeResponse.
  repeat match goal with
         | |- context [match ?x with _ => _ end] => destruct x
         end; eauto.
Qed.

(** Events the loop has consumed while waiting do not matter to what it
    does with the next ones. *)
Lemma composingCycle_app pre rest s s' :
  composingCycle pre s = Waiting s' ->
  composingCycle (pre ++ rest) s = composingCycle rest s'.
Proof.
  revert s. induction pre as [|ev pre IH]; intros s; simpl.
  - intros H. simplify_eq. reflexivity.
  - destruct ev as [event data|a l|a l|l|e]; auto; try discriminate.
    repeat match goal with
           | |- context [if ?b then _ else _] => destruct b
           | |- context [match onFeeResponse ?f ?c ?g ?d ?s with _ => _ end] =>
               destruct (onFeeResponse_settles f c g d s) as [[s1 ->]|[c1 [-> Hc1]]]
           | |- context [match ?x with _ => _ end] => destruct x
           end; auto; try (intros H; discriminate H).
    intros ->. contradiction (Hc1 s'). reflexivity.
Qed.

Lemma composingCycle_stray event data rest s :
  stray UI (UiResponse event data) ->
  composingCycle (UiResponse event data :: rest) s = composingCycle rest s.
Proof.
  intros (event' & data' & [= <- <-] & Ha & Hf & Hc). simpl.
  apply String.eqb_neq in Ha, Hf, Hc. rewrite Ha, Hf, Hc. reflexivity.
Qed.

Lemma method_failed events positive e s :
  gt_zero (total input) = Some positive ->
  composingCycle events (start positive) = Failed e s ->
  method events = RejectedWith e s.
Proof. intros Hpos Hcycle. unfold_finish. rewrite Hpos, Hcycle. reflexivity. Qed.

Lemma method_chosen events positive tx s :
  gt_zero (total input) = Some positive ->
  composingCycle events (start positive) = Chosen tx s ->
  method events = finish tx s.
Proof. intros Hpos Hcycle. unfold method. rewrite Hpos, Hcycle. reflexivity. Qed.

(** *** The end of the method *)

(** On the path without a push, and on the path where the push succeeds,
    the backend is released once. *)
Lemma finish_resolved_disposes tx s result s' :
  finish tx s = Resolved result s' ->
  disposals (log s') = S (disposals (log s)).
Proof.
  unfold_finish. unfold disposals. intros H.
  run; rewrite ?List.filter_app, ?length_app; simpl; lia.
Qed.

(** On every path that ends in an exception the backend is not released:
    [backend.dispose()] is only reached by falling through to the end. *)
Lemma finish_rejected_keeps_backend tx s e s' :
  finish tx s = RejectedWith e s' ->
  disposals (log s') = disposals (log s).
Proof.
  unfold_finish. unfold disposals. intros H.
  run; rewrite ?List.filter_app, ?length_app; simpl; lia.
Qed.

(** C5.  When the push is requested, the device signs and the backend
    rejects the transaction with an error, the method throws an object
    that carries the message of the error and every property of the
    serialized signed transaction, its bytes among them.  (The object the
    device returns has no property named [error]: the spread would
    overwrite the message.) *)
Theorem broadcast_failure_carries_signed_tx
    events positive tx s c ins serialized error message :
  gt_zero (total input) = Some positive ->
  composingCycle events (start positive) = Chosen tx s ->
  txComposer s = Some c ->
  transaction_inputs tx = Some ins ->
  pushTransaction input = true ->
  signTx tx (getReferencedTx ins) (coinInfo input) (locktime input)
    = Fulfilled serialized ->
  sendTransactionHex (field serialized "serialized_tx") = Rejected error ->
  get error "message" = Some message ->
  serialized !! "error" = None ->
  exists obj s',
    method events = RejectedWith (Thrown (Obj obj)) s'
    /\ obj !! "error" = Some message
    /\ (forall k v, serialized !! k = Some v -> obj !! k = Some v).
Proof.
  intros Hpos Hcycle Hc Hins Hpush Hsign Hsend Hmsg Hfree.
  rewrite (method_chosen _ _ _ _ Hpos Hcycle).
  unfold field in Hsend. unfold_finish.
  rewrite Hc, Hins, Hsign, Hpush, Hsend, Hmsg.
  eexists _, _. split; [reflexivity|]. split.
  - rewrite lookup_union_r by assumption.
    rewrite lookup_insert_ne by discriminate. apply lookup_insert_eq.
  - intros k v Hk. apply lookup_union_Some_l. assumption.
Qed.

(** C7.  Responses of the popup whose event is none of [RECEIVE_ACCOUNT],
    [RECEIVE_FEE] and [CHANGE_ACCOUNT] are dropped: the loop does with the
    events that follow what it would have done without them, in the same
    session (nothing is posted, nothing is thrown), and with only such
    responses it keeps waiting. *)
Theorem stray_events_are_dropped strays rest s :
  Forall (stray UI) strays ->
  composingCycle (strays ++ rest) s = composingCycle rest s
  /\ composingCycle strays s = Waiting s.
Proof.
  intros Hstrays.
  assert (Hwait : composingCycle strays s = Waiting s).
  { induction Hstrays as [|ev strays (event & data & -> & Hne) _ IH];
      [reflexivity|].
    rewrite composingCycle_stray; [exact IH|].
    exists event, data. auto. }
  split; [|exact Hwait].
  apply composingCycle_app. exact Hwait.
Qed.

(** C8.  When the transactions composed for the selected account include a
    double send-max error, the method rejects with [Double send max!]: the
    log ends with the composition of all levels, so no transaction is
    composed at the minimum fee and the insufficient funds view is not
    shown. *)
Theorem double_send_max_is_fatal pre data rest positive s :
  gt_zero (total input) = Some positive ->
  composingCycle pre (start positive) = Waiting s ->
  existsb is_two_send_max
    (composeAllLevels (index (accounts s) (parseInt data)) (outputs input)) = true ->
  exists s',
    method (pre ++ UiResponse (RECEIVE_ACCOUNT UI) data :: rest)
      = RejectedWith (Error "Double send max!") s'
    /\ log s' = log s ++ [ StopDiscovering;
                            ComposerInit (index (accounts s) (parseInt data));
                            ComposeAllLevels ].
Proof.
  intros Hpos Hwait Hdouble.
  eexists. split.
  - apply (method_failed _ _ _ _ Hpos).
    rewrite (composingCycle_app _ _ _ _ Hwait). simpl.
    rewrite String.eqb_refl. simpl.
    unfold_selection. simpl.
    rewrite (check_composed_throws _ _ Hdouble). reflexivity.
  - simpl. rewrite <- !app_assoc. reflexivity.
Qed.

(** C6, as amended.  When no level composes to a final transaction and no
    result is a double send-max error, one transaction more is composed, at
    the minimum fee of the coin, and no other.  If it is final it replaces
    the last composed transaction and, the composer having answered for
    every fee level (at least one), the fee selection view is shown; if it
    is not, the insufficient funds view is shown and, 2000 ms later,
    discovery is restored.  Either way the function returns, and the loop
    waits for the next response. *)
Theorem minimum_fee_retry n s :
  let account := index (accounts s) n in
  let txs := composeAllLevels account (outputs input) in
  let fee := Int (minFee (coinInfo input)) in
  let tx := compose account (outputs input) fee in
  existsb is_final txs = false ->
  existsb is_two_send_max txs = false ->
  exists s' raised,
    onAccountSelection n s = (s', raised)
    /\ composed_at (log s') = composed_at (log s) ++ [fee]
    /\ if is_final tx then
         composed <$> txComposer s' = Some (set_last txs tx)
         /\ ((length feeLevels <= length txs)%nat -> txs <> [] ->
             raised = None
             /\ exists label l,
                  log s' = log s ++ [ComposerInit account; ComposeAllLevels; Compose fee]
                             ++ (if is_zero (total input)
                                 then [PostMessage (SET_OPERATION label)] else [])
                             ++ [PostMessage (SELECT_FEE l)])
       else
         raised = None
         /\ log s' = log s ++ [ComposerInit account; ComposeAllLevels; Compose fee;
                               PostMessage INSUFFICIENT_FUNDS; ResolveAfter 2000]
                       ++ restore_log input s.
Proof.
  intros account txs fee tx Hfinal Hdouble.
  unfold_onAccountSelection. fold account. fold txs. fold fee. fold tx.
  rewrite (check_composed_valid _ _ Hdouble), Hfinal. simpl.
  destruct (is_final tx) eqn:Htx.
  - set (txs' := if txs_is_composed then set_last txs tx else txs).
    match goal with
    | |- context [show_fees txs' ?s4] =>
        destruct (show_fees txs' s4) as [s' raised] eqn:Hshow;
        pose proof (show_fees_log txs' s4) as Hlog;
        pose proof (show_fees_posts txs' s4) as Hposts
    end.
    rewrite Hshow in Hlog, Hposts. simpl in Hlog.
    destruct Hlog as (Hcomposed & Hcomposer).
    exists s', raised. split; [reflexivity|]. split; [|split].
    + rewrite Hcomposed. unfold composed_at. rewrite !omap_app. simpl.
      rewrite ?app_nil_r. reflexivity.
    + rewrite Hcomposer. reflexivity.
    + intros Hlen Hne.
      destruct Hposts as (t & l & Hpost).
      * unfold txs', set_last. destruct txs_is_composed;
          rewrite ?length_insert; assumption.
      * intros H. apply Hne. apply length_zero_iff_nil.
        apply (f_equal length) in H. revert H. unfold txs', set_last.
        destruct txs_is_composed; rewrite ?length_insert; trivial.
      * injection Hpost as -> ->. split; [reflexivity|].
        exists ("Send " ++ formatAmount (totalSpent_of t) (coinInfo input))%string, l.
        destruct (is_zero (total input)); simpl; rewrite <- ?app_assoc;
          reflexivity.
  - eexists _, _. split; [reflexivity|].
    unfold showInsufficientFundsView.
    destruct (restoreDiscovery_log
                (emit (ResolveAfter 2000)
                   (postMessage INSUFFICIENT_FUNDS
                      (emit (Compose fee)
                         (emit ComposeAllLevels
                            (emit (ComposerInit account)
                               (set_txComposer
                                  (Some {| tc_account := account;
                                           tc_outputs := outputs input;
                                           composed := txs |})
                                  (set_selectedAccount account s))))))))
      as (Hlog & _ & _).
    rewrite Hlog. unfold restore_log. simpl. rewrite <- !app_assoc. simpl.
    split; [|split; reflexivity].
    unfold composed_at. rewrite !omap_app. simpl.
    destruct (is_zero (total input)), (discoveryCompleted s); reflexivity.
Qed.

End WorkflowFacts.

(** ** Invariants of the validator *)

Section ValidatorInvariants.

Variable checkPermissions : list string -> list string.
Variable getCoinInfoByCurrency : string -> option CoinInfo.
Variable stringToHex : string -> string.
Variable fromBase58Check : string -> option Z.

#[local] Abbreviation params :=
  (params checkPermissions getCoinInfoByCurrency stringToHex fromBase58Check).
#[local] Abbreviation parse_output := (parse_output stringToHex fromBase58Check).
#[local] Abbreviation parse_outputs := (parse_outputs stringToHex fromBase58Check).
#[local] Abbreviation after_locktime :=
  (after_locktime checkPermissions stringToHex fromBase58Check).

(** A property of the parsed outputs that every turn of the loop keeps holds
    when the loop ends. *)
Lemma parse_outputs_keeps (P : Parsed -> Prop) coin n outs :
  (forall acc out acc', In out outs -> P acc ->
     parse_output coin n acc out = Return acc' -> P acc') ->
  forall acc acc', P acc -> parse_outputs coin n acc outs = Return acc' -> P acc'.
Proof.
  induction outs as [|out outs IH]; intros Hstep acc acc' HP; simpl.
  - intros H. simplify_eq. assumption.
  - destruct (parse_output coin n acc out) as [acc1| |] eqn:E; simpl;
      try discriminate.
    apply IH.
    + intros a o a' Hin. apply Hstep. right. assumption.
    + eapply Hstep; [left; reflexivity| |]; eassumption.
Qed.

(** What an accepted request went through: the coin was found, the lock
    time passed, [outputs] is an array and the loop over it returned. *)
Lemma params_accepted props mp :
  params (Obj props) = Return mp ->
  exists coin outs acc,
    getCoinInfoByCurrency (requested_coin props) = Some coin
    /\ locktime_rejected props = false
    /\ field props "outputs" = Arr outs
    /\ parse_outputs coin (length outs)
         {| p_total := Num (Int 0); p_hasSendMax := false; p_outputs := [] |} outs
       = Return acc
    /\ reset_total acc = Return (total (input mp))
    /\ outputs (input mp) = p_outputs acc
    /\ coinInfo (input mp) = coin
    /\ locktime (input mp) = parseInt (field props "locktime").
Proof.
  rewrite params_object.
  destruct (getCoinInfoByCurrency _) as [coin|] eqn:Hcoin; [|discriminate].
  destruct (locktime_rejected props) eqn:Hlock; [discriminate|].
  unfold_after_locktime.
  destruct (field props "outputs") as [| | | | |outs|]; try discriminate.
  destruct (parse_outputs coin _ _ outs) as [acc| |] eqn:E; try discriminate.
  destruct (gt_zero (p_total acc)) eqn:Hgt; try discriminate.
  intros H. simplify_eq. exists coin, outs, acc. simpl.
  rewrite Hgt. auto 10.
Qed.

(** X1.  An accepted request has at most one send-max output. *)
Theorem at_most_one_send_max props mp :
  params (Obj props) = Return mp ->
  (length (List.filter is_send_max (outputs (input mp))) <= 1)%nat.
Proof.
  intros (coin & outs & acc & _ & _ & _ & Hloop & _ & -> & _)%params_accepted.
  pose (P := fun acc : Parsed =>
    (length (List.filter is_send_max (p_outputs acc)) <= 1)%nat
    /\ (p_hasSendMax acc = false -> List.filter is_send_max (p_outputs acc) = [])).
  enough (P acc) as [H _] by exact H.
  refine (parse_outputs_keeps P _ _ _ _ _ _ _ Hloop);
    [|split; [simpl; lia|reflexivity]].
  clear. intros acc out acc' _ [Hle Hnone]. unfold_output. intros H.
  run.
  all: unfold P; simpl; rewrite List.filter_app; simpl; rewrite ?app_nil_r.
  all: try (split; assumption).
  rewrite Hnone by reflexivity. simpl. split; [lia|discriminate].
Qed.

(** X2.  An OP_RETURN output of an accepted request is its only output. *)
Theorem opreturn_is_sole_output props mp dataHex :
  params (Obj props) = Return mp ->
  In (OpReturn dataHex) (outputs (input mp)) ->
  outputs (input mp) = [OpReturn dataHex].
Proof.
  intros (coin & outs & acc & _ & _ & _ & Hloop & _ & -> & _)%params_accepted Hin.
  pose proof (parse_outputs_length _ _ _ _ _ _ _ Hloop) as Hlen. simpl in Hlen.
  pose (P := fun acc : Parsed =>
    forall d, In (OpReturn d) (p_outputs acc) -> (length outs <= 1)%nat).
  assert (HP : P acc).
  { refine (parse_outputs_keeps P _ _ _ _ _ _ _ Hloop); [|intros d []].
    clear. intros acc out acc' _ HP. unfold_output. intros H.
    run; unfold P; simpl; intros d [Hd|Hd]%in_app_or; eauto;
      try (destruct Hd as [Hd|[]]; discriminate).
    all: match goal with
         | H : (1 <? _) = false |- _ => apply Z.ltb_ge in H; lia
         end. }
  specialize (HP _ Hin).
  destruct (p_outputs acc) as [|o [|o' os]]; simpl in *; try lia;
    intuition congruence.
Qed.

(** X3.  The payload of an OP_RETURN output of an accepted request, when it
    is a string, has at most 160 characters (80 bytes in hexadecimal),
    whether it was given in hexadecimal or as text. *)
Theorem opreturn_payload_bound props mp s :
  params (Obj props) = Return mp ->
  In (OpReturn (Str s)) (outputs (input mp)) ->
  (String.length s <= 160)%nat.
Proof.
  intros (coin & outs & acc & _ & _ & _ & Hloop & _ & -> & _)%params_accepted.
  pose (P := fun acc : Parsed =>
    forall s, In (OpReturn (Str s)) (p_outputs acc) -> (String.length s <= 160)%nat).
  enough (P acc) as H by apply H.
  refine (parse_outputs_keeps P _ _ _ _ _ _ _ Hloop); [|intros d []].
  clear. intros acc out acc' _ HP. unfold_output. intros H.
  run; unfold P; simpl; intros d [Hd|Hd]%in_app_or; eauto;
    destruct Hd as [Hd|[]]; simplify_eq;
    repeat match goal with
           | H : (_ <? _) = false |- _ => apply Z.ltb_ge in H
           end; simpl in *; lia.
Qed.

(** X4.  The address of a complete output of an accepted request decodes,
    and its version is the pay-to-public-key-hash or the pay-to-script-hash
    version of the coin of the request. *)
Theorem complete_address_on_network props mp address amount :
  params (Obj props) = Return mp ->
  In (Complete address amount) (outputs (input mp)) ->
  exists version,
    fromBase58Check address = Some version
    /\ (version = pubKeyHash (network (coinInfo (input mp)))
        \/ version = scriptHash (network (coinInfo (input mp)))).
Proof.
  intros (coin & outs & acc & _ & _ & _ & Hloop & _ & -> & -> & _)%params_accepted.
  pose (P := fun acc : Parsed =>
    forall a m, In (Complete a m) (p_outputs acc) ->
      exists version,
        fromBase58Check a = Some version
        /\ (version = pubKeyHash (network coin) \/ version = scriptHash (network coin))).
  enough (P acc) as H by apply H.
  refine (parse_outputs_keeps P _ _ _ _ _ _ _ Hloop); [|intros a m []].
  clear. intros acc out acc' _ HP. unfold_output. intros H.
  run; unfold P; simpl; intros a' m' [Hd|Hd]%in_app_or; eauto;
    destruct Hd as [Hd|[]]; simplify_eq.
  eexists. split; [eassumption|].
  match goal with
  | H : negb _ && negb _ = false |- _ =>
      apply andb_false_iff in H;
      destruct H as [H|H]; apply negb_false_iff, Z.eqb_eq in H; auto
  end.
Qed.

Lemma parse_output_amount_error coin n acc out :
  parse_output coin n acc out = Throw (Error "Output without amount") ->
  exists s, get out "amount" = Some (Str s) /\ parseInt (Str s) = NaN.
Proof.
  unfold_output. intros H. run.
  match goal with
  | H : _ && isNaN (parseInt ?a) && _ = true |- _ =>
      apply andb_prop in H; destruct H as [[Ht Hn]%andb_prop _];
      destruct a; try discriminate Ht
  end.
  eexists. split; [reflexivity|].
  match goal with
  | H : isNaN ?p = true |- ?p = NaN => destruct p; [reflexivity|discriminate H]
  end.
Qed.

(** X5.  The validator throws [Output without amount] only for an output
    whose amount is a string that does not parse as an integer: an amount
    that is absent, or of any other type, passes the check. *)
Theorem amount_error_needs_unparsable_string props :
  params (Obj props) = Throw (Error "Output without amount") ->
  exists outs out s,
    field props "outputs" = Arr outs /\ In out outs
    /\ get out "amount" = Some (Str s) /\ parseInt (Str s) = NaN.
Proof.
  rewrite params_object.
  destruct (getCoinInfoByCurrency _) as [coin|]; [|discriminate].
  destruct (locktime_rejected props); [discriminate|].
  unfold_after_locktime.
  destruct (field props "outputs") as [| | | | |outs|]; try discriminate.
  destruct (parse_outputs coin _ _ outs) as [acc|e|] eqn:E; try discriminate.
  { destruct (gt_zero (p_total acc)); discriminate. }
  intros He. simplify_eq. exists outs. revert E.
  generalize (length outs).
  generalize {| p_total := Num (Int 0); p_hasSendMax := false; p_outputs := [] |}.
  induction outs as [|out outs IH]; intros acc n; simpl; [discriminate|].
  destruct (parse_output coin n acc out) as [acc1|e|] eqn:E; simpl;
    try discriminate.
  - intros (o & s & _ & Hin & Hs)%IH. exists o, s. split; [reflexivity|].
    split; [right; exact Hin|exact Hs].
  - intros He. simplify_eq.
    destruct (parse_output_amount_error _ _ _ _ E) as (s & Hs).
    exists out, s. split; [reflexivity|]. split; [left; reflexivity|exact Hs].
Qed.

(** The flag tells whether a send-max output was pushed. *)
Lemma parse_outputs_flag coin n outs acc acc' :
  p_hasSendMax acc = existsb is_send_max (p_outputs acc) ->
  parse_outputs coin n acc outs = Return acc' ->
  p_hasSendMax acc' = existsb is_send_max (p_outputs acc').
Proof.
  intros Hflag Hloop.
  refine (parse_outputs_keeps
            (fun acc => p_hasSendMax acc = existsb is_send_max (p_outputs acc))
            _ _ _ _ _ _ Hflag Hloop).
  clear. intros acc out acc' _ Hflag. unfold_output. intros H.
  run; rewrite existsb_app; simpl; rewrite ?orb_false_r, ?orb_true_r; auto.
Qed.

Lemma add_string a s : is_string_value (add a (Str s)) = true.
Proof. unfold add. simpl. rewrite orb_true_r. reflexivity. Qed.

Lemma add_to_string a b : is_string_value a = true -> is_string_value (add a b) = true.
Proof. destruct a; try discriminate. reflexivity. Qed.

Lemma raw_complete_amount out :
  string_amount out = true ->
  exists type s,
    get out "type" = Some type
    /\ is_string type "opreturn" = false /\ is_string type "send-max" = false
    /\ get out "amount" = Some (Str s).
Proof.
  unfold string_amount, raw_complete, raw_amount.
  destruct (get out "type") as [type|] eqn:Htype; [|discriminate].
  intros [[Hop Hmax]%andb_prop Hamount]%andb_prop.
  apply negb_true_iff in Hop, Hmax.
  destruct (get out "amount") as [[]|] eqn:Ha; try discriminate.
  eauto 10.
Qed.

Lemma parse_outputs_string_total coin n outs acc acc' :
  is_string_value (p_total acc) = true \/ existsb string_amount outs = true ->
  parse_outputs coin n acc outs = Return acc' ->
  is_string_value (p_total acc') = true.
Proof.
  revert acc. induction outs as [|out outs IH]; intros acc Hor; simpl.
  - intros H. simplify_eq. destruct Hor as [H|H]; [exact H|discriminate].
  - destruct (parse_output coin n acc out) as [acc1| |] eqn:E; simpl;
      try discriminate.
    apply IH. simpl in Hor.
    destruct Hor as [Hs|[Hs|Hs]%orb_prop]; [left|left|right; exact Hs].
    + revert E. unfold_output. intros E. run; auto using add_to_string.
    + apply raw_complete_amount in Hs as (type & s & Htype & Hop & Hmax & Hamount).
      revert E. unfold_output. rewrite Htype, Hop, Hmax, Hamount. intros E.
      run. apply add_string.
Qed.

(** X6.  Amounts are added to the total as they are given: when an accepted
    request has no send-max output and one of its complete outputs gives
    its amount as a string, the total of the request is a string (the
    concatenation that [+] makes), not a number. *)
Theorem string_amount_makes_total_a_string props outs mp :
  props !! "outputs" = Some (Arr outs) ->
  existsb string_amount outs = true ->
  params (Obj props) = Return mp ->
  existsb is_send_max (outputs (input mp)) = false ->
  is_string_value (total (input mp)) = true.
Proof.
  intros Houts Hstr
    (coin & outs' & acc & _ & _ & Hfield & Hloop & Hreset & -> & _)%params_accepted
    Hmax.
  unfold field in Hfield. rewrite Houts in Hfield. simpl in Hfield.
  injection Hfield as <-.
  pose proof (fun H => parse_outputs_flag _ _ _ _ _ H Hloop) as Hflag.
  specialize (Hflag eq_refl).
  pose proof (parse_outputs_string_total _ _ _ _ _ (or_intror Hstr) Hloop) as Htotal.
  revert Hreset. unfold reset_total. rewrite Hflag, Hmax.
  destruct (gt_zero (p_total acc)) as [positive|]; [|discriminate].
  rewrite andb_false_r. intros [= <-]. exact Htotal.
Qed.


(** X8.  A lock time that is truthy is accepted only if it parses: the lock
    time of the accepted request is then an integer. *)
Theorem truthy_locktime_is_integer props mp :
  params (Obj props) = Return mp ->
  truthy (field props "locktime") = true ->
  exists z, locktime (input mp) = Int z.
Proof.
  intros (coin & outs & acc & _ & Hlock & _ & _ & _ & _ & _ & ->)%params_accepted
    Htruthy.
  unfold locktime_rejected in Hlock. rewrite Htruthy in Hlock. simpl in Hlock.
  destruct (parseInt (field props "locktime")) as [|z]; [discriminate|].
  exists z. reflexivity.
Qed.



(** *** Numbers survive [parseInt] *)

Lemma span_digits_uint d :
  span_digits 10 (NilEmpty.string_of_uint d) = (uint_digits d, EmptyString).
Proof. induction d; simpl; rewrite ?IHd; reflexivity. Qed.

Lemma digits_value_revapp d d' :
  fold_left (fun acc x => acc * 10 + x) (uint_digits d)
    (Z.of_N (DecimalPos.Unsigned.of_lu d'))
  = Z.of_N (DecimalPos.Unsigned.of_lu (Decimal.revapp d d')).
Proof.
  revert d'. induction d; intros d'; simpl; [reflexivity|..];
    rewrite <- IHd; f_equal; simpl DecimalPos.Unsigned.of_lu; lia.
Qed.

Lemma digits_value_uint d :
  digits_value 10 (uint_digits d) = Z.of_N (Pos.of_uint d).
Proof.
  rewrite DecimalPos.Unsigned.of_uint_alt. unfold Decimal.rev, digits_value.
  rewrite <- digits_value_revapp. reflexivity.
Qed.

Lemma parseInt_uint (sign : bool) (d : Decimal.uint) :
  d <> Decimal.Nil ->
  parseInt_string
    ((if sign then "-" else "") ++ NilEmpty.string_of_uint d)%string
  = Int ((if sign then -1 else 1) * Z.of_N (Pos.of_uint d)).
Proof.
  intros Hd. rewrite <- digits_value_uint. unfold parseInt_string.
  assert (Hstart : strip_sign (trim_left ((if sign then "-" else "")
                                          ++ NilEmpty.string_of_uint d)%string)
                   = (if sign then -1 else 1, NilEmpty.string_of_uint d)).
  { destruct sign, d; try contradiction; reflexivity. }
  rewrite Hstart.
  assert (Hhex : strip_hex_prefix (NilEmpty.string_of_uint d) = None).
  { destruct d as [|d| | | | | | | | |]; try reflexivity.
    destruct d; reflexivity. }
  rewrite Hhex, span_digits_uint. simpl.
  destruct d; try contradiction; reflexivity.
Qed.

(** [parseInt] of an integer number is that integer.  (Beyond 10^21 a
    number prints with an exponent, which is outside the model.) *)
Lemma parseInt_integer z :
  - 10 ^ 21 < z < 10 ^ 21 -> parseInt (Num (Int z)) = Int z.
Proof.
  intros _. unfold parseInt. simpl. unfold NilZero.string_of_int.
  destruct z as [|p|p]; simpl; [reflexivity|..].
  - unfold NilZero.string_of_uint.
    pose proof (DecimalPos.Unsigned.to_uint_nonnil p) as Hnil.
    replace (match Pos.to_uint p with
             | Decimal.Nil => "0"%string
             | _ => NilEmpty.string_of_uint (Pos.to_uint p)
             end) with (NilEmpty.string_of_uint (Pos.to_uint p))
      by (destruct (Pos.to_uint p); [contradiction|reflexivity..]).
    etransitivity; [exact (parseInt_uint false _ Hnil)|].
    rewrite DecimalPos.Unsigned.of_to. reflexivity.
  - unfold NilZero.string_of_uint.
    pose proof (DecimalPos.Unsigned.to_uint_nonnil p) as Hnil.
    replace (match Pos.to_uint p with
             | Decimal.Nil => "0"%string
             | _ => NilEmpty.string_of_uint (Pos.to_uint p)
             end) with (NilEmpty.string_of_uint (Pos.to_uint p))
      by (destruct (Pos.to_uint p); [contradiction|reflexivity..]).
    etransitivity; [exact (parseInt_uint true _ Hnil)|].
    rewrite DecimalPos.Unsigned.of_to. reflexivity.
Qed.

(** *** The parsed outputs follow the raw ones *)

Lemma parse_output_parsed_as coin n acc out acc' :
  parse_output coin n acc out = Return acc' ->
  exists o, p_outputs acc' = p_outputs acc ++ [o] /\ parsed_as out o.
Proof.
  unfold parsed_as, raw_amount. unfold_output. intros H.
  destruct (get out "type") as [type|] eqn:Htype; [|discriminate].
  destruct (is_string type "opreturn") eqn:Hop.
  { run; eauto. }
  destruct (is_string type "send-max") eqn:Hmax.
  { run. eauto. }
  run. eauto 10.
Qed.

Lemma parse_outputs_parsed_as coin n outs acc acc' :
  parse_outputs coin n acc outs = Return acc' ->
  exists parsed,
    p_outputs acc' = p_outputs acc ++ parsed /\ Forall2 parsed_as outs parsed.
Proof.
  revert acc. induction outs as [|out outs IH]; intros acc; simpl.
  - intros [= <-]. exists []. rewrite app_nil_r. split; constructor.
  - destruct (parse_output coin n acc out) as [acc1| |] eqn:E; simpl;
      try discriminate.
    intros (parsed & Hparsed & Hall)%IH.
    apply parse_output_parsed_as in E as (o & Ho & Has).
    exists (o :: parsed). split; [|constructor; assumption].
    rewrite Hparsed, Ho, <- app_assoc. reflexivity.
Qed.

Lemma accepted_parsed_as props outs mp :
  props !! "outputs" = Some (Arr outs) ->
  params (Obj props) = Return mp ->
  Forall2 parsed_as outs (outputs (input mp)).
Proof.
  intros Houts
    (coin & outs' & acc & _ & _ & Hfield & Hloop & _ & -> & _)%params_accepted.
  unfold field in Hfield. rewrite Houts in Hfield. simpl in Hfield.
  injection Hfield as <-.
  apply parse_outputs_parsed_as in Hloop as (parsed & -> & Hall). exact Hall.
Qed.

(** X10.  The outputs of an accepted request follow the raw outputs one by
    one, in order: each has the type of the raw output at its place, with
    its address (checked to be a string for a complete output) and, for a
    complete output, the amount [parseInt] reads. *)
Theorem outputs_follow_raw_outputs props outs mp :
  props !! "outputs" = Some (Arr outs) ->
  params (Obj props) = Return mp ->
  Forall2 parsed_as outs (outputs (input mp)).
Proof. apply accepted_parsed_as. Qed.

(** X11.  A complete output that declares an integer number as its amount
    (below 10^21 in absolute value) is parsed with that amount, sign
    included: negative amounts are accepted as they are. *)
Theorem integer_amount_is_kept props outs mp i out z :
  props !! "outputs" = Some (Arr outs) ->
  params (Obj props) = Return mp ->
  outs !! i = Some out ->
  raw_complete out = true ->
  raw_amount out = Num (Int z) ->
  - 10 ^ 21 < z < 10 ^ 21 ->
  exists address, outputs (input mp) !! i = Some (Complete address (Int z)).
Proof.
  intros Houts Hret Hi Hcomplete Hamount Hz.
  pose proof (accepted_parsed_as _ _ _ Houts Hret) as Hall.
  destruct (Forall2_lookup_l _ _ _ _ _ Hall Hi) as (o & Ho & Has).
  revert Has Hcomplete. unfold parsed_as, raw_complete.
  destruct (get out "type") as [type|]; [|contradiction].
  destruct (is_string type "opreturn"); [discriminate 2|].
  destruct (is_string type "send-max"); [discriminate 2|].
  intros (address & _ & ->) _. exists address.
  rewrite Ho, Hamount, (parseInt_integer _ Hz). reflexivity.
Qed.

(** X12.  A lock time given as an integer number (below 10^21 in absolute
    value) is the lock time of the accepted request, 0 included. *)
Theorem integer_locktime_is_kept props mp z :
  params (Obj props) = Return mp ->
  field props "locktime" = Num (Int z) ->
  - 10 ^ 21 < z < 10 ^ 21 ->
  locktime (input mp) = Int z.
Proof.
  intros (coin & outs & acc & _ & _ & _ & _ & _ & _ & _ & ->)%params_accepted
    -> Hz.
  apply parseInt_integer. exact Hz.
Qed.

End ValidatorInvariants.

(** ** Invariants of the workflow *)

Section WorkflowInvariants.

Variable UI : UiConstants.
Variable formatAmount : value -> CoinInfo -> string.
Variable feeLevels : list FeeLevel.
Variable customFeeLevel : FeeLevel.
Variable composeAllLevels : option Account -> list Output -> list BuildTxResult.
Variable compose : option Account -> list Output -> number -> BuildTxResult.
Variable getEstimatedTime : value -> Z.
Variable getReferencedTx : list string -> list Transaction.
Variable signTx :
  option BuildTxResult -> list Transaction -> CoinInfo -> number ->
  settled (gmap string value).
Variable sendTransactionHex : value -> settled string.
Variable txs_is_composed : bool.
Variable input : Input.

#[local] Abbreviation restoreDiscovery := (restoreDiscovery input).
#[local] Abbreviation show_fees :=
  (show_fees formatAmount feeLevels getEstimatedTime input).
#[local] Abbreviation onAccountSelection :=
  (onAccountSelection formatAmount feeLevels composeAllLevels compose
     getEstimatedTime txs_is_composed input).
#[local] Abbreviation onFeeResponse :=
  (onFeeResponse customFeeLevel compose getEstimatedTime).
#[local] Abbreviation composingCycle :=
  (composingCycle UI formatAmount feeLevels customFeeLevel composeAllLevels compose
     getEstimatedTime txs_is_composed input).
#[local] Abbreviation finish :=
  (finish getReferencedTx signTx sendTransactionHex input).
#[local] Abbreviation start := (start formatAmount input).
#[local] Abbreviation method :=
  (method UI formatAmount feeLevels customFeeLevel composeAllLevels compose
     getEstimatedTime getReferencedTx signTx sendTransactionHex txs_is_composed input).

(** *** What the event loop logs *)

Lemma grows_refl s : grows s s.
Proof. exists []. rewrite app_nil_r. auto. Qed.

Lemma grows_trans s1 s2 s3 : grows s1 s2 -> grows s2 s3 -> grows s1 s3.
Proof.
  intros (l1 & H1 & F1) (l2 & H2 & F2). exists (l1 ++ l2).
  rewrite H2, H1, <- app_assoc, forallb_app, F1, F2. auto.
Qed.

Lemma grows_emit e s s' : grows s s' -> loop_effect e = true -> grows s (emit e s').
Proof.
  intros H He. apply (grows_trans _ _ _ H). exists [e]. simpl. rewrite He. auto.
Qed.

Lemma grows_log s s1 s2 : grows s s1 -> log s2 = log s1 -> grows s s2.
Proof. intros (l & H & F) Hlog. exists l. rewrite Hlog. auto. Qed.

Lemma grows_set_accounts l s s' : grows s s' -> grows s (set_accounts l s').
Proof. intros H. apply (grows_log _ _ _ H). reflexivity. Qed.

Lemma grows_set_discoveryCompleted b s s' :
  grows s s' -> grows s (set_discoveryCompleted b s').
Proof. intros H. apply (grows_log _ _ _ H). reflexivity. Qed.

Lemma grows_set_selectedAccount a s s' :
  grows s s' -> grows s (set_selectedAccount a s').
Proof. intros H. apply (grows_log _ _ _ H). reflexivity. Qed.

Lemma grows_set_txComposer c s s' : grows s s' -> grows s (set_txComposer c s').
Proof. intros H. apply (grows_log _ _ _ H). reflexivity. Qed.

Ltac grows :=
  unfold postMessage;
  repeat first
    [ assumption
    | apply grows_refl
    | apply grows_emit; [|reflexivity]
    | apply grows_set_accounts
    | apply grows_set_discoveryCompleted
    | apply grows_set_selectedAccount
    | apply grows_set_txComposer ].

Lemma grows_restoreDiscovery s s' : grows s s' -> grows s (restoreDiscovery s').
Proof.
  intros H. apply (grows_trans _ _ _ H).
  destruct (restoreDiscovery_log input s') as (Hlog & _ & _).
  eexists. split; [exact Hlog|]. unfold restore_log.
  destruct (is_zero (total input)), (discoveryCompleted s'); reflexivity.
Qed.

Lemma grows_show_fees txs s s' : grows s s' -> grows s (show_fees txs s').1.
Proof.
  intros H. unfold_show_fees. unfold postMessage.
  run; grows.
Qed.

Ltac grows ::=
  unfold postMessage;
  repeat first
    [ assumption
    | apply grows_refl
    | apply grows_emit; [|reflexivity]
    | apply grows_set_accounts
    | apply grows_set_discoveryCompleted
    | apply grows_set_selectedAccount
    | apply grows_set_txComposer
    | apply grows_restoreDiscovery
    | apply grows_show_fees ].

Lemma grows_onAccountSelection n s s' :
  grows s s' -> grows s (onAccountSelection n s').1.
Proof.
  intros H. unfold_onAccountSelection. unfold showInsufficientFundsView.
  repeat match goal with
         | |- context [match ?x with _ => _ end] => destruct x eqn:?
         end; simpl; grows.
Qed.

Lemma grows_onFeeResponse data s :
  match onFeeResponse data s with
  | inl s' => grows s s'
  | inr c => cycle_session c = s
  end.
Proof.
  unfold_onFeeResponse.
  destruct (get data "type") as [type|]; [|reflexivity].
  destruct (is_string type "custom").
  - destruct (txComposer s); [grows|reflexivity].
  - destruct (is_string type "fee"); [destruct (txComposer s)|]; reflexivity.
Qed.

(** Whatever the events, the loop only adds to the log, and only calls of
    its own. *)
Lemma grows_composingCycle events s :
  grows s (cycle_session (composingCycle events s)).
Proof.
  assert (H : forall s', grows s s' ->
                grows s (cycle_session (composingCycle events s'))).
  { induction events as [|ev events IH]; intros s' Hs'; simpl; [exact Hs'|].
    destruct ev as [event data|a l|a l|l|e]; simpl.
    - repeat match goal with
             | |- context [if ?b then _ else _] => destruct b
             end.
      + apply IH, Hs'.
      + pose proof (grows_onAccountSelection (parseInt data) s
                      (emit StopDiscovering s')) as Hsel.
        destruct (onAccountSelection _ _) as [s1 [e|]]; simpl in *;
          [|apply IH]; apply Hsel; grows.
      + apply IH. grows.
      + pose proof (grows_onFeeResponse data s') as Hfee.
        destruct (onFeeResponse data s') as [s1|c]; simpl in *.
        * apply IH. eapply grows_trans; eassumption.
        * rewrite Hfee. exact Hs'.
    - apply IH. unfold onStart. grows.
    - apply IH. unfold onUpdate. grows.
    - apply IH. unfold onComplete. grows.
    - exact Hs'. }
  apply H, grows_refl.
Qed.

Lemma grows_quiet s s' :
  grows s s' ->
  disposals (log s') = disposals (log s)
  /\ sent (log s') = sent (log s)
  /\ signed (log s') = signed (log s)
  /\ backends (log s') = backends (log s).
Proof.
  intros (l & -> & Hl).
  unfold disposals, sent, signed, backends.
  rewrite List.filter_app, length_app, !omap_app.
  induction l as [|e l IH]; simpl in *.
  - rewrite !app_nil_r, Nat.add_0_r. auto.
  - apply andb_prop in Hl as [He Hl]. specialize (IH Hl).
    destruct IH as (Hd & Hs & Hg & Hb).
    destruct e; try discriminate He; simpl; auto.
Qed.

Lemma start_log positive :
  disposals (log (start positive)) = 0%nat
  /\ sent (log (start positive)) = []
  /\ signed (log (start positive)) = []
  /\ backends (log (start positive)) = [coin_name (coinInfo input)].
Proof. destruct positive; repeat split. Qed.

(** What the loop leaves in the log when it stops, whatever the events. *)
Lemma cycle_log events positive :
  let s := cycle_session (composingCycle events (start positive)) in
  disposals (log s) = 0%nat
  /\ sent (log s) = []
  /\ signed (log s) = []
  /\ backends (log s) = [coin_name (coinInfo input)].
Proof.
  intros s.
  destruct (grows_quiet _ _ (grows_composingCycle events (start positive)))
    as (Hd & Hs & Hg & Hb).
  destruct (start_log positive) as (Hd0 & Hs0 & Hg0 & Hb0).
  unfold s. rewrite Hd, Hs, Hg, Hb. auto.
Qed.


(** X14.  The method hands at most one transaction to the device and sends
    at most one to the backend, none unless the push was requested, and
    none that the device has not signed. *)
Theorem signs_and_sends_at_most_once events s :
  outcome_session (method events) = Some s ->
  (length (signed (log s)) <= 1)%nat
  /\ (length (sent (log s)) <= if pushTransaction input then 1 else 0)%nat
  /\ (length (sent (log s)) <= length (signed (log s)))%nat.
Proof.
  unfold method. destruct (gt_zero (total input)) as [positive|]; [|discriminate].
  pose proof (cycle_log events positive) as (_ & Hs & Hg & _). revert Hs Hg.
  destruct (composingCycle events (start positive)) as [s0|tx s0|e s0]; simpl;
    intros Hs Hg.
  - intros [= <-]. rewrite Hs, Hg. simpl. destruct (pushTransaction input); lia.
  - unfold finish, sent, signed in *. intros H.
    run; rewrite ?omap_app, ?Hs, ?Hg; simpl; lia.
  - intros [= <-]. rewrite Hs, Hg. simpl. destruct (pushTransaction input); lia.
Qed.

(** X15.  When the push is requested and the backend accepts the
    transaction, the method resolves with every property of the serialized
    signed transaction and the transaction id under [txid] (the object the
    device returns having no [txid] of its own); the bytes it sent are
    [serialized_tx]. *)
Theorem pushed_result_carries_txid events positive tx s c ins serialized txId :
  gt_zero (total input) = Some positive ->
  composingCycle events (start positive) = Chosen tx s ->
  txComposer s = Some c ->
  transaction_inputs tx = Some ins ->
  pushTransaction input = true ->
  signTx tx (getReferencedTx ins) (coinInfo input) (locktime input)
    = Fulfilled serialized ->
  sendTransactionHex (field serialized "serialized_tx") = Fulfilled txId ->
  serialized !! "txid" = None ->
  exists result s',
    method events = Resolved result s'
    /\ result !! "txid" = Some (Str txId)
    /\ (forall k v, serialized !! k = Some v -> result !! k = Some v)
    /\ sent (log s') = [field serialized "serialized_tx"].
Proof.
  intros Hpos Hcycle Hc Hins Hpush Hsign Hsend Hfree.
  rewrite (method_chosen _ _ _ _ _ _ _ _ _ _ _ _ _ _ _ _ Hpos Hcycle).
  pose proof (cycle_log events positive) as (_ & Hs & _). rewrite Hcycle in Hs.
  simpl in Hs.
  unfold field in *. unfold finish, spread.
  rewrite Hc, Hins, Hsign, Hpush, Hsend.
  eexists _, _. split; [reflexivity|]. split; [|split].
  - rewrite lookup_union_r by assumption. apply lookup_insert_eq.
  - intros k v Hk. apply lookup_union_Some_l. assumption.
  - simpl. unfold sent in *. rewrite !omap_app, Hs. reflexivity.
Qed.

(** X16.  Once an account was selected, only a final transaction reaches
    the device: when the loop ends with no transaction (a fee index out of
    range, a fee response of an unknown type) or with one that is not
    final, the method rejects with a [TypeError] and nothing is signed. *)
Theorem only_final_is_signed events positive tx s c :
  gt_zero (total input) = Some positive ->
  composingCycle events (start positive) = Chosen tx s ->
  txComposer s = Some c ->
  transaction_inputs tx = None ->
  method events = RejectedWith TypeError s /\ signed (log s) = [].
Proof.
  intros Hpos Hcycle Hc Hins.
  rewrite (method_chosen _ _ _ _ _ _ _ _ _ _ _ _ _ _ _ _ Hpos Hcycle).
  pose proof (cycle_log events positive) as (_ & _ & Hg & _).
  rewrite Hcycle in Hg. simpl in Hg.
  unfold finish. rewrite Hc, Hins. auto.
Qed.

(** X17.  A response of the fee view that arrives before any account was
    selected (choosing a fee, or editing the custom fee) rejects the method
    with [TransactionComposer not initialized.]. *)
Theorem fee_before_account_fails pre data type rest positive s :
  gt_zero (total input) = Some positive ->
  composingCycle pre (start positive) = Waiting s ->
  txComposer s = None ->
  RECEIVE_FEE UI <> RECEIVE_ACCOUNT UI ->
  RECEIVE_FEE UI <> CHANGE_ACCOUNT UI ->
  get data "type" = Some type ->
  is_string type "custom" || is_string type "fee" = true ->
  method (pre ++ UiResponse (RECEIVE_FEE UI) data :: rest)
  = RejectedWith (Error "TransactionComposer not initialized.") s.
Proof.
  intros Hpos Hwait Hnone Hra Hca Htype Hkind.
  apply (method_failed _ _ _ _ _ _ _ _ _ _ _ _ _ _ _ _ Hpos).
  rewrite (composingCycle_app _ _ _ _ _ _ _ _ _ _ _ _ _ Hwait). simpl.
  apply String.eqb_neq in Hra, Hca. rewrite Hra, Hca, String.eqb_refl. simpl.
  unfold_onFeeResponse. rewrite Htype, Hnone.
  destruct (is_string type "custom"); [reflexivity|].
  simpl in Hkind. rewrite Hkind. reflexivity.
Qed.

(** X22.  An error of the discovery rejects the method with that error, in
    the session the loop was waiting in: discovery is not stopped and the
    backend is not released. *)
Theorem discovery_error_rejects pre error rest positive s :
  gt_zero (total input) = Some positive ->
  composingCycle pre (start positive) = Waiting s ->
  method (pre ++ OnError error :: rest) = RejectedWith error s.
Proof.
  intros Hpos Hwait.
  apply (method_failed _ _ _ _ _ _ _ _ _ _ _ _ _ _ _ _ Hpos).
  rewrite (composingCycle_app _ _ _ _ _ _ _ _ _ _ _ _ _ Hwait). reflexivity.
Qed.



(** X26.  When the device refuses to sign, the method rejects with the
    reason the device gave; the transaction was handed to the device and
    nothing is sent to the backend. *)
Theorem signing_failure_rejects events positive tx s c ins reason :
  gt_zero (total input) = Some positive ->
  composingCycle events (start positive) = Chosen tx s ->
  txComposer s = Some c ->
  transaction_inputs tx = Some ins ->
  signTx tx (getReferencedTx ins) (coinInfo input) (locktime input)
    = Rejected reason ->
  exists s',
    method events = RejectedWith (Thrown reason) s'
    /\ signed (log s') = [tx] /\ sent (log s') = [].
Proof.
  intros Hpos Hcycle Hc Hins Hsign.
  rewrite (method_chosen _ _ _ _ _ _ _ _ _ _ _ _ _ _ _ _ Hpos Hcycle).
  pose proof (cycle_log events positive) as (_ & Hs & Hg & _).
  rewrite Hcycle in Hs, Hg. simpl in Hs, Hg.
  unfold finish. rewrite Hc, Hins, Hsign.
  eexists. split; [reflexivity|]. simpl. unfold signed, sent in *.
  rewrite !omap_app, Hs, Hg. auto.
Qed.

(** *** Account selection *)



Lemma fee_list_from levels txs i :
  match fee_list getEstimatedTime levels txs i with
  | Some l =>
      List.map sb_name l = List.map level_name levels
      /\ (levels = [] \/ i + length levels <= length txs)%nat
  | None => (length txs < i + length levels)%nat
  end.
Proof.
  revert i. induction levels as [|level levels IH]; intros i; simpl.
  - auto.
  - destruct (txs !! i) as [t|] eqn:Ht.
    + apply lookup_lt_Some in Ht. specialize (IH (S i)).
      destruct (fee_list getEstimatedTime levels txs (S i)) as [l|].
      * destruct IH as [Hnames Hlen]. simpl. split.
        -- rewrite Hnames. destruct t; reflexivity.
        -- right. destruct Hlen as [->|Hlen]; simpl; lia.
      * lia.
    + apply lookup_ge_None in Ht. lia.
Qed.

(** X25.  The list of the fee view follows the fee levels: one entry for
    each level, under its name, in the order of the levels.  Building it
    fails (the [TypeError] of reading a missing result) exactly when the
    composer returned fewer results than there are levels. *)
Theorem fee_list_follows_levels levels txs :
  match fee_list getEstimatedTime levels txs 0 with
  | Some l =>
      List.map sb_name l = List.map level_name levels
      /\ (length levels <= length txs)%nat
  | None => (length txs < length levels)%nat
  end.
Proof.
  pose proof (fee_list_from levels txs 0) as H.
  destruct (fee_list getEstimatedTime levels txs 0) as [l|]; [|exact H].
  destruct H as [Hnames [->|Hlen]]; (split; [exact Hnames|simpl in *; lia]).
Qed.

(** X19.  When a level composes to a final transaction (and no result is a
    double send-max error), no transaction is composed at the minimum fee
    and the composed transactions are kept as they are; the composer having
    answered for every level, the fee selection view is shown, with one
    entry for each level. *)
Theorem final_available_skips_retry n s :
  let account := index (accounts s) n in
  let txs := composeAllLevels account (outputs input) in
  existsb is_final txs = true ->
  existsb is_two_send_max txs = false ->
  exists s' raised,
    onAccountSelection n s = (s', raised)
    /\ composed_at (log s') = composed_at (log s)
    /\ composed <$> txComposer s' = Some txs
    /\ ((length feeLevels <= length txs)%nat ->
        raised = None
        /\ exists label l,
             log s' = log s ++ [ComposerInit account; ComposeAllLevels]
                        ++ (if is_zero (total input)
                            then [PostMessage (SET_OPERATION label)] else [])
                        ++ [PostMessage (SELECT_FEE l)]
             /\ List.map sb_name l = List.map level_name feeLevels).
Proof.
  intros account txs Hfinal Hdouble.
  unfold_onAccountSelection. fold account. fold txs.
  rewrite (check_composed_valid _ _ Hdouble), Hfinal. simpl.
  match goal with
  | |- context [show_fees txs ?s2] =>
      destruct (show_fees txs s2) as [s' raised] eqn:Hshow;
      pose proof (show_fees_log formatAmount feeLevels getEstimatedTime input txs s2)
        as Hlog
  end.
  rewrite Hshow in Hlog. simpl in Hlog. destruct Hlog as (Hcomposed & Hcomposer).
  exists s', raised. split; [reflexivity|]. split; [|split].
  - rewrite Hcomposed. unfold composed_at. rewrite !omap_app. simpl.
    rewrite !app_nil_r. reflexivity.
  - rewrite Hcomposer. reflexivity.
  - intros Hlen. revert Hshow. unfold_show_fees.
    pose proof (fee_list_from feeLevels txs 0) as Hlist.
    destruct (fee_list getEstimatedTime feeLevels txs 0) as [l|]; [|simpl in Hlist; lia].
    destruct Hlist as [Hnames _].
    destruct (last txs) as [t|] eqn:Hlast.
    + intros H.
      destruct (is_zero (total input)); injection H as <- <-;
        (split; [reflexivity|]);
        exists ("Send " ++ formatAmount (totalSpent_of t) (coinInfo input))%string, l;
        (split; [|exact Hnames]); simpl; rewrite <- ?app_assoc; reflexivity.
    + apply last_None in Hlast. rewrite Hlast in Hfinal. discriminate.
Qed.

(** *** Discovery callbacks *)


(** *** The custom fee *)

Lemma set_last_length {A} (l : list A) x : length (set_last l x) = length l.
Proof. apply length_insert. Qed.

Lemma set_last_lookup {A} (l : list A) x i :
  (S i < length l)%nat -> set_last l x !! i = l !! i.
Proof. intros H. apply list_lookup_insert_ne. lia. Qed.

Lemma set_last_last {A} (l : list A) x : l <> [] -> last (set_last l x) = Some x.
Proof.
  intros H. rewrite last_lookup, set_last_length.
  apply list_lookup_insert_eq. destruct l; [contradiction|simpl; lia].
Qed.

Lemma composingCycle_custom ev rate rest s c :
  custom_rate UI ev = Some rate ->
  txComposer s = Some c ->
  let tx := compose (tc_account c) (tc_outputs c) rate in
  composingCycle (ev :: rest) s =
    composingCycle rest
      (postMessage
         (UPDATE_CUSTOM_FEE
            (simpleTxResult customFeeLevel (getEstimatedTime (fee_of tx)) tx))
         (set_txComposer
            (Some {| tc_account := tc_account c; tc_outputs := tc_outputs c;
                     composed := set_last (composed c) tx |})
            (emit (Compose rate) s))).
Proof.
  unfold custom_rate. destruct ev as [event data| | | |]; try discriminate.
  destruct (String.eqb event (RECEIVE_FEE UI)) eqn:Hf; [|discriminate].
  destruct (String.eqb event (RECEIVE_ACCOUNT UI)) eqn:Ha; [discriminate|].
  destruct (String.eqb event (CHANGE_ACCOUNT UI)) eqn:Hc; [discriminate|].
  simpl. destruct (get data "type") as [type|] eqn:Htype; [|discriminate].
  destruct (is_string type "custom") eqn:Hcustom; [|discriminate].
  intros [= <-] Hcomposer. simpl. rewrite Hf, Ha, Hc. simpl.
  unfold_onFeeResponse. rewrite Htype, Hcustom, Hcomposer. reflexivity.
Qed.

Lemma custom_edits_run edits rates rest s c :
  Forall2 (fun ev rate => custom_rate UI ev = Some rate) edits rates ->
  txComposer s = Some c ->
  exists s' c',
    composingCycle (edits ++ rest) s = composingCycle rest s'
    /\ txComposer s' = Some c'
    /\ tc_account c' = tc_account c /\ tc_outputs c' = tc_outputs c
    /\ length (composed c') = length (composed c)
    /\ (forall i, (S i < length (composed c))%nat ->
          composed c' !! i = composed c !! i)
    /\ last (composed c')
       = match last rates with
         | Some rate =>
             if decide (composed c = []) then None
             else Some (compose (tc_account c) (tc_outputs c) rate)
         | None => last (composed c)
         end
    /\ composed_at (log s') = composed_at (log s) ++ rates
    /\ accounts s' = accounts s
    /\ selectedAccount s' = selectedAccount s.
Proof.
  intros Hall. revert s c.
  induction Hall as [|ev rate edits rates Hev Hall IH]; intros s c Hc.
  - exists s, c. simpl. rewrite app_nil_r. auto 10.
  - rewrite <- app_comm_cons, (composingCycle_custom _ _ _ _ _ Hev Hc).
    match goal with
    | |- context [composingCycle (edits ++ rest) ?s1] =>
        destruct (IH s1 _ eq_refl)
          as (s' & c' & Hcycle & Hc' & Hacc & Hout & Hlen & Hkeep & Hlast
              & Hlog & Ha & Hsel)
    end.
    simpl in *. exists s', c'.
    rewrite Hcycle, Hc', Hacc, Hout, Hlen, Hlog, Ha, Hsel, Hlast.
    rewrite set_last_length.
    do 5 (split; [reflexivity|]). split; [|split; [|split; [|auto]]].
    + intros i Hi. rewrite Hkeep by (rewrite set_last_length; exact Hi).
      apply set_last_lookup. exact Hi.
    + rewrite last_cons. destruct (last rates) as [r|].
      * repeat case_decide; try reflexivity; exfalso.
        -- match goal with H : set_last _ _ = [] |- _ =>
             apply (f_equal length) in H; rewrite set_last_length in H;
             apply length_zero_iff_nil in H; contradiction
           end.
        -- match goal with H : composed c = [] |- _ =>
             rewrite H in *; contradiction
           end.
      * case_decide as Hnil.
        -- rewrite Hnil. reflexivity.
        -- apply set_last_last. exact Hnil.
    + unfold composed_at. rewrite !omap_app. simpl.
      rewrite <- !app_assoc. reflexivity.
Qed.

(** X20.  Editing the custom fee any number of times composes one
    transaction for each edit, at the rate of the edit, and writes it over
    the last composed transaction: the composed transactions stay as many,
    all but the last are left as they are, and the last is the one composed
    at the last rate. *)
Theorem custom_fee_edits_keep_slots edits rates rest s c :
  Forall2 (fun ev rate => custom_rate UI ev = Some rate) edits rates ->
  txComposer s = Some c ->
  exists s' c',
    composingCycle (edits ++ rest) s = composingCycle rest s'
    /\ txComposer s' = Some c'
    /\ length (composed c') = length (composed c)
    /\ (forall i, (S i < length (composed c))%nat ->
          composed c' !! i = composed c !! i)
    /\ (forall rate, last rates = Some rate -> composed c <> [] ->
          last (composed c')
          = Some (compose (tc_account c) (tc_outputs c) rate))
    /\ composed_at (log s') = composed_at (log s) ++ rates
    /\ accounts s' = accounts s
    /\ selectedAccount s' = selectedAccount s.
Proof.
  intros Hall Hc.
  destruct (custom_edits_run _ _ rest _ _ Hall Hc)
    as (s' & c' & Hcycle & Hc' & _ & _ & Hlen & Hkeep & Hlast & Hlog & Ha & Hsel).
  exists s', c'. repeat (split; [assumption|]). split; [|auto].
  intros rate Hrate Hne. rewrite Hlast, Hrate.
  case_decide; [contradiction|reflexivity].
Qed.

(** X21.  Going back to the account selection keeps the composer of the
    account selected before: a fee chosen right after is taken from the
    transactions composed for that account, without a new selection. *)
Theorem fee_after_change_account data0 data rest s c :
  CHANGE_ACCOUNT UI <> RECEIVE_ACCOUNT UI ->
  RECEIVE_FEE UI <> RECEIVE_ACCOUNT UI ->
  RECEIVE_FEE UI <> CHANGE_ACCOUNT UI ->
  txComposer s = Some c ->
  get data "type" = Some (Str "fee") ->
  composingCycle
    (UiResponse (CHANGE_ACCOUNT UI) data0 :: UiResponse (RECEIVE_FEE UI) data :: rest) s
  = Chosen (index (composed c) (parseInt (default Undefined (get data "value"))))
      (restoreDiscovery s).
Proof.
  intros Hca Hfa Hfc Hc Htype. simpl.
  apply String.eqb_neq in Hca, Hfa, Hfc.
  rewrite Hca, Hfa, Hfc, !String.eqb_refl. simpl.
  rewrite !andb_false_r. simpl.
  unfold_onFeeResponse. rewrite Htype. simpl.
  assert (Hkeep : txComposer (restoreDiscovery s) = Some c).
  { rewrite <- Hc. unfold_selection.
    destruct (is_zero (total input)); simpl;
      destruct (discoveryCompleted s); reflexivity. }
  rewrite Hkeep. reflexivity.
Qed.

End WorkflowInvariants.

(** ** The embedding on concrete requests *)

Section Examples.

Import Sample Example.

(** C3.  A request with one OP_RETURN output whose payload is the four
    hexadecimal digits [abcd] (two bytes) is rejected as not hexadecimal:
    the pattern asks for six digits exactly. *)
Theorem opreturn_hex_payload_rejected :
  Sample.params (Obj (request [opreturn "abcd"]))
  = Throw (Error "OP_RETURN data is not valid hexadecimal").
Proof. vm_compute. reflexivity. Qed.

(** A payload of six digits passes, and so does an output without a
    payload: the checks are made on a string that is not empty only. *)
Example opreturn_without_data :
  exists mp, Sample.params (Obj (request [Obj {[ "type" := Str "opreturn" ]}])) = Return mp
             /\ outputs (input mp) = [OpReturn Undefined].
Proof. eexists. split; vm_compute; reflexivity. Qed.

Example opreturn_six_digits :
  exists mp, Sample.params (Obj (request [opreturn "abcdef"])) = Return mp
             /\ outputs (input mp) = [OpReturn (Str "abcdef")].
Proof. eexists. split; vm_compute; reflexivity. Qed.

(** C2 fails: a send-max output next to a complete output of amount -5 is
    accepted, and the total is -5. *)
Lemma send_max_total_not_zero :
  exists mp,
    Sample.params (Obj (request [send_max; complete (Num (Int (-5)))])) = Return mp
    /\ outputs (input mp)
        = [SendMax (Str p2sh_address); Complete p2pkh_address (Int (-5))]
    /\ total (input mp) = Num (Int (-5)).
Proof. eexists. repeat split; vm_compute; reflexivity. Qed.

(** C4 fails: an empty array of outputs is accepted. *)
Lemma empty_outputs_accepted :
  exists mp,
    Sample.params (Obj (request [])) = Return mp
    /\ outputs (input mp) = [] /\ total (input mp) = Num (Int 0).
Proof. eexists. repeat split; vm_compute; reflexivity. Qed.

(** C10 fails: the number 0 is falsy, and its lock time is 0. *)
Lemma zero_locktime_is_kept :
  truthy (Num (Int 0)) = false
  /\ exists mp,
       Sample.params (Obj (<["locktime" := Num (Int 0)]> (request []))) = Return mp
       /\ locktime (input mp) = Int 0.
Proof. split; [reflexivity|]. eexists. split; vm_compute; reflexivity. Qed.

(** C1.  The push is requested, the device signs, the backend rejects the
    transaction: the method throws, and its log has no [Dispose]. *)
Theorem broadcast_failure_leaks_backend :
  exists obj s,
    Sample.method funded (fun _ => final 1) (Fulfilled serialized)
      (Rejected network_error) (payment true) select_and_sign
    = RejectedWith (Thrown (Obj obj)) s
    /\ last (log s) = Some (SendTransactionHex (Str "0100beef"))
    /\ disposals (log s) = 0%nat.
Proof. eexists _, _. repeat split; vm_compute; reflexivity. Qed.

(** The same run with a backend that accepts the transaction releases it. *)
Example broadcast_success_disposes :
  exists result s,
    Sample.method funded (fun _ => final 1) (Fulfilled serialized)
      (Fulfilled "txid"%string) (payment true) select_and_sign
    = Resolved result s
    /\ last (log s) = Some Dispose
    /\ disposals (log s) = 1%nat.
Proof. eexists _, _. repeat split; vm_compute; reflexivity. Qed.

(** C6 fails: no level is final, one is a double send-max error, and no
    transaction is composed at the minimum fee. *)
Lemma double_send_max_is_not_retried :
  existsb is_final with_double_send_max = false
  /\ exists s,
       Sample.onAccountSelection with_double_send_max (fun _ => final 1)
         (payment false) (Int 0) discovered
       = (s, Some (Error "Double send max!"))
       /\ composed_at (log s) = [].
Proof. split; [reflexivity|]. eexists. split; vm_compute; reflexivity. Qed.

(** *** The theorems at concrete inputs *)

Lemma send_max_total_is_zero_witness :
  exists mp,
    Sample.params (Obj (request [send_max; complete (Num (Int 50000))])) = Return mp
    /\ total (input mp) = Num (Int 0).
Proof.
  eexists. split; [vm_compute; reflexivity|].
  eapply (send_max_total_is_zero
            Sample.checkPermissions Sample.getCoinInfoByCurrency
            Sample.stringToHex Sample.fromBase58Check
            (request [send_max; complete (Num (Int 50000))])
            [send_max; complete (Num (Int 50000))]).
  - reflexivity.
  - reflexivity.
  - vm_compute. reflexivity.
  - reflexivity.
Defined.

Lemma outputs_must_be_an_array_witness :
  Sample.params (Obj {[ "outputs" := Str "none" ]})
  = Throw (Error "Outputs is not an Array").
Proof.
  exact (outputs_must_be_an_array
           Sample.checkPermissions Sample.getCoinInfoByCurrency
           Sample.stringToHex Sample.fromBase58Check
           {[ "outputs" := Str "none" ]} bitcoin eq_refl eq_refl).
Defined.

Lemma missing_coin_defaults_to_Bitcoin_witness :
  typeof (field (request []) "coin") <> "string"%string
  /\ forall mp, Sample.params (Obj (request [])) = Return mp ->
                coinInfo (input mp) = bitcoin.
Proof.
  assert (H : typeof (field (request []) "coin") <> "string"%string)
    by discriminate.
  split; [exact H|].
  exact (proj2 (proj2 (missing_coin_defaults_to_Bitcoin
                         Sample.checkPermissions Sample.getCoinInfoByCurrency
                         Sample.stringToHex Sample.fromBase58Check
                         (request []) H))).
Defined.

Lemma falsy_locktime_witness :
  truthy (field (<["locktime" := Null]> (request [])) "locktime") = false
  /\ forall mp,
       Sample.params (Obj (<["locktime" := Null]> (request []))) = Return mp ->
       locktime (input mp) = NaN.
Proof.
  split; [reflexivity|].
  exact (proj2 (falsy_locktime
                  Sample.checkPermissions Sample.getCoinInfoByCurrency
                  Sample.stringToHex Sample.fromBase58Check
                  (<["locktime" := Null]> (request []))) eq_refl).
Defined.

Lemma broadcast_failure_carries_signed_tx_witness :
  exists obj s,
    Sample.method funded (fun _ => final 1) (Fulfilled serialized)
      (Rejected network_error) (payment true) select_and_sign
    = RejectedWith (Thrown (Obj obj)) s
    /\ obj !! "error" = Some (Str "Network error")
    /\ (forall k v, serialized !! k = Some v -> obj !! k = Some v).
Proof.
  eapply (broadcast_failure_carries_signed_tx
            Sample.UI Sample.formatAmount Sample.feeLevels Sample.customFeeLevel
            (fun _ _ => funded) (fun _ _ _ => final 1)
            Sample.getEstimatedTime Sample.getReferencedTx
            (fun _ _ _ _ => Fulfilled serialized) (fun _ => Rejected network_error)
            true (payment true) select_and_sign true).
  - reflexivity.
  - vm_compute. reflexivity.
  - reflexivity.
  - reflexivity.
  - reflexivity.
  - reflexivity.
  - reflexivity.
  - reflexivity.
  - reflexivity.
Defined.

Lemma stray_events_are_dropped_witness :
  Sample.composingCycle funded (fun _ => final 1) (payment false)
    [UiResponse "ui-receive_pin" (Str "1234")] discovered
  = Waiting discovered.
Proof.
  apply (stray_events_are_dropped
           Sample.UI Sample.formatAmount Sample.feeLevels Sample.customFeeLevel
           (fun _ _ => funded) (fun _ _ _ => final 1) Sample.getEstimatedTime
           true (payment false)
           [UiResponse "ui-receive_pin" (Str "1234")] [] discovered).
  constructor; [|constructor].
  exists "ui-receive_pin"%string, (Str "1234").
  split; [reflexivity|]. repeat split; discriminate.
Defined.

Lemma double_send_max_is_fatal_witness :
  exists s,
    Sample.method with_double_send_max (fun _ => final 1) (Fulfilled serialized)
      (Fulfilled "txid"%string) (payment false)
      (discovery ++ [UiResponse "ui-receive_account" (Num (Int 0))])
    = RejectedWith (Error "Double send max!") s
    /\ composed_at (log s) = [].
Proof.
  edestruct (double_send_max_is_fatal
               Sample.UI Sample.formatAmount Sample.feeLevels Sample.customFeeLevel
               (fun _ _ => with_double_send_max) (fun _ _ _ => final 1)
               Sample.getEstimatedTime Sample.getReferencedTx
               (fun _ _ _ _ => Fulfilled serialized)
               (fun _ => Fulfilled "txid"%string)
               true (payment false) discovery (Num (Int 0)) [] true)
    as (s & Hmethod & Hlog).
  - reflexivity.
  - vm_compute. reflexivity.
  - reflexivity.
  - exists s. split; [exact Hmethod|]. rewrite Hlog. reflexivity.
Defined.

Lemma minimum_fee_retry_witness :
  exists s,
    Sample.onAccountSelection unfunded (fun _ => final 1) (payment false)
      (Int 0) discovered
    = (s, None)
    /\ composed_at (log s) = [Int 1].
Proof.
  destruct (minimum_fee_retry
              Sample.formatAmount Sample.feeLevels
              (fun _ _ => unfunded) (fun _ _ _ => final 1)
              Sample.getEstimatedTime true (payment false) (Int 0) discovered)
    as (s & raised & Hsel & Hcomposed & _ & Hshown).
  - reflexivity.
  - reflexivity.
  - destruct Hshown as (-> & _); [simpl; lia|discriminate|].
    exists s. split; [exact Hsel|exact Hcomposed].
Defined.

(** *** The further theorems at concrete inputs *)

Import Cases.

#[local] Abbreviation on_sample thm :=
  (thm Sample.checkPermissions Sample.getCoinInfoByCurrency
       Sample.stringToHex Sample.fromBase58Check).

Lemma at_most_one_send_max_witness :
  exists mp,
    Sample.params (Obj (request [send_max; complete (Num (Int 50000))])) = Return mp
    /\ (length (List.filter is_send_max (outputs (input mp))) <= 1)%nat.
Proof.
  eexists. split; [vm_compute; reflexivity|].
  apply (on_sample at_most_one_send_max
           (request [send_max; complete (Num (Int 50000))])).
  vm_compute. reflexivity.
Defined.

Lemma opreturn_is_sole_output_witness :
  exists mp,
    Sample.params (Obj (request [opreturn "abcdef"])) = Return mp
    /\ outputs (input mp) = [OpReturn (Str "abcdef")].
Proof.
  eexists. split; [vm_compute; reflexivity|].
  apply (on_sample opreturn_is_sole_output (request [opreturn "abcdef"])).
  - vm_compute. reflexivity.
  - left. reflexivity.
Defined.

Lemma opreturn_payload_bound_witness :
  exists mp,
    Sample.params (Obj (request [opreturn "abcdef"])) = Return mp
    /\ In (OpReturn (Str "abcdef")) (outputs (input mp))
    /\ (String.length "abcdef" <= 160)%nat.
Proof.
  eexists. split; [vm_compute; reflexivity|].
  assert (Hin : In (OpReturn (Str "abcdef")) [OpReturn (Str "abcdef")])
    by (left; reflexivity).
  split; [exact Hin|].
  eapply (on_sample opreturn_payload_bound (request [opreturn "abcdef"])).
  - vm_compute. reflexivity.
  - exact Hin.
Defined.

Lemma complete_address_on_network_witness :
  exists mp version,
    Sample.params (Obj (paying [Num (Int 50000)])) = Return mp
    /\ Sample.fromBase58Check p2pkh_address = Some version
    /\ (version = pubKeyHash (network (coinInfo (input mp)))
        \/ version = scriptHash (network (coinInfo (input mp)))).
Proof.
  eexists.
  edestruct (fun mp => on_sample complete_address_on_network
                         (paying [Num (Int 50000)]) mp p2pkh_address (Int 50000))
    as (version & Hversion & Hnetwork).
  - vm_compute. reflexivity.
  - left. reflexivity.
  - exists version. split; [reflexivity|]. split; [exact Hversion|exact Hnetwork].
Defined.

Lemma amount_error_needs_unparsable_string_witness :
  Sample.params (Obj (paying [Str "abc"])) = Throw (Error "Output without amount")
  /\ exists outs out s,
       field (paying [Str "abc"]) "outputs" = Arr outs /\ In out outs
       /\ get out "amount" = Some (Str s) /\ parseInt (Str s) = NaN.
Proof.
  assert (H : Sample.params (Obj (paying [Str "abc"]))
              = Throw (Error "Output without amount"))
    by (vm_compute; reflexivity).
  split; [exact H|].
  exact (on_sample amount_error_needs_unparsable_string (paying [Str "abc"]) H).
Defined.

Lemma string_amount_makes_total_a_string_witness :
  exists mp,
    Sample.params (Obj (paying [Str "50000"])) = Return mp
    /\ total (input mp) = Str "050000"
    /\ is_string_value (total (input mp)) = true.
Proof.
  eexists. split; [vm_compute; reflexivity|]. split; [reflexivity|].
  eapply (on_sample string_amount_makes_total_a_string (paying [Str "50000"])
            [complete (Str "50000")]).
  - reflexivity.
  - reflexivity.
  - vm_compute. reflexivity.
  - reflexivity.
Defined.


Lemma truthy_locktime_is_integer_witness :
  exists mp z,
    Sample.params (Obj (<["locktime" := Str "500000"]> (request []))) = Return mp
    /\ locktime (input mp) = Int z.
Proof.
  eexists.
  edestruct (on_sample truthy_locktime_is_integer
               (<["locktime" := Str "500000"]> (request []))) as [z Hz].
  - vm_compute. reflexivity.
  - reflexivity.
  - exists z. split; [reflexivity|exact Hz].
Defined.


Lemma outputs_follow_raw_outputs_witness :
  exists mp,
    Sample.params (Obj (request [send_max; complete (Num (Int 50000))])) = Return mp
    /\ Forall2 parsed_as [send_max; complete (Num (Int 50000))] (outputs (input mp)).
Proof.
  eexists. split; [vm_compute; reflexivity|].
  apply (on_sample outputs_follow_raw_outputs
           (request [send_max; complete (Num (Int 50000))])).
  - reflexivity.
  - vm_compute. reflexivity.
Defined.

Lemma integer_amount_is_kept_witness :
  exists mp address,
    Sample.params (Obj (paying [Num (Int (-5))])) = Return mp
    /\ outputs (input mp) !! 0%nat = Some (Complete address (Int (-5))).
Proof.
  eexists.
  edestruct (fun mp => on_sample integer_amount_is_kept (paying [Num (Int (-5))])
                         [complete (Num (Int (-5)))] mp 0%nat
                         (complete (Num (Int (-5)))) (-5))
    as [address Haddress].
  - reflexivity.
  - vm_compute. reflexivity.
  - reflexivity.
  - reflexivity.
  - reflexivity.
  - lia.
  - exists address. split; [reflexivity|exact Haddress].
Defined.

Lemma integer_locktime_is_kept_witness :
  exists mp,
    Sample.params (Obj (<["locktime" := Num (Int 650000)]> (request []))) = Return mp
    /\ locktime (input mp) = Int 650000.
Proof.
  eexists. split; [vm_compute; reflexivity|].
  apply (on_sample integer_locktime_is_kept
           (<["locktime" := Num (Int 650000)]> (request []))).
  - vm_compute. reflexivity.
  - reflexivity.
  - lia.
Defined.

#[local] Abbreviation on_method thm txs at_fee signed sent input :=
  (thm Sample.UI Sample.formatAmount Sample.feeLevels Sample.customFeeLevel
       (fun (_ : option Account) (_ : list Output) => txs)
       (fun (_ : option Account) (_ : list Output) => at_fee)
       Sample.getEstimatedTime Sample.getReferencedTx
       (fun (_ : option BuildTxResult) (_ : list Transaction) (_ : CoinInfo)
            (_ : number) => signed)
       (fun _ : value => sent) true input).

#[local] Abbreviation on_cycle thm txs at_fee input :=
  (thm Sample.UI Sample.formatAmount Sample.feeLevels Sample.customFeeLevel
       (fun (_ : option Account) (_ : list Output) => txs)
       (fun (_ : option Account) (_ : list Output) => at_fee)
       Sample.getEstimatedTime true input).


Lemma signs_and_sends_at_most_once_witness :
  exists result s,
    Sample.method funded (fun _ => final 1) (Fulfilled serialized)
      (Fulfilled "txid"%string) (payment false) select_and_sign
    = Resolved result s
    /\ (length (sent (log s)) <= 0)%nat.
Proof.
  eexists _, _. split; [vm_compute; reflexivity|].
  apply (on_method signs_and_sends_at_most_once
           funded (fun _ => final 1) (Fulfilled serialized)
           (Fulfilled "txid"%string) (payment false) select_and_sign).
  vm_compute. reflexivity.
Defined.

Lemma pushed_result_carries_txid_witness :
  exists result s,
    Sample.method funded (fun _ => final 1) (Fulfilled serialized)
      (Fulfilled "txid"%string) (payment true) select_and_sign
    = Resolved result s
    /\ result !! "txid" = Some (Str "txid")
    /\ (forall k v, serialized !! k = Some v -> result !! k = Some v)
    /\ sent (log s) = [Str "0100beef"].
Proof.
  eapply (on_method pushed_result_carries_txid
            funded (fun _ => final 1) (Fulfilled serialized)
            (Fulfilled "txid"%string) (payment true) select_and_sign true).
  - reflexivity.
  - vm_compute. reflexivity.
  - reflexivity.
  - reflexivity.
  - reflexivity.
  - reflexivity.
  - reflexivity.
  - reflexivity.
Defined.

Lemma only_final_is_signed_witness :
  exists s,
    Sample.method funded (fun _ => final 1) (Fulfilled serialized)
      (Fulfilled "txid"%string) (payment false)
      (discovery ++ [select_account 0; choose_fee "7"])
    = RejectedWith TypeError s
    /\ signed (log s) = [].
Proof.
  eexists.
  eapply (on_method only_final_is_signed
            funded (fun _ => final 1) (Fulfilled serialized)
            (Fulfilled "txid"%string) (payment false)
            (discovery ++ [select_account 0; choose_fee "7"]) true None).
  - reflexivity.
  - vm_compute. reflexivity.
  - reflexivity.
  - reflexivity.
Defined.

Lemma fee_before_account_fails_witness :
  exists s,
    Sample.method funded (fun _ => final 1) (Fulfilled serialized)
      (Fulfilled "txid"%string) (payment false)
      (discovery ++ [choose_fee "0"])
    = RejectedWith (Error "TransactionComposer not initialized.") s.
Proof.
  eexists.
  eapply (on_method fee_before_account_fails
            funded (fun _ => final 1) (Fulfilled serialized)
            (Fulfilled "txid"%string) (payment false)
            discovery (Obj {[ "type" := Str "fee"; "value" := Str "0" ]})
            (Str "fee") [] true).
  - reflexivity.
  - vm_compute. reflexivity.
  - reflexivity.
  - discriminate.
  - discriminate.
  - reflexivity.
  - reflexivity.
Defined.

Lemma discovery_error_rejects_witness :
  exists s,
    Sample.method funded (fun _ => final 1) (Fulfilled serialized)
      (Fulfilled "txid"%string) (payment false)
      (discovery ++ [OnError (Error "Backend unreachable")])
    = RejectedWith (Error "Backend unreachable") s.
Proof.
  eexists.
  eapply (on_method discovery_error_rejects
            funded (fun _ => final 1) (Fulfilled serialized)
            (Fulfilled "txid"%string) (payment false)
            discovery (Error "Backend unreachable") [] true).
  - reflexivity.
  - vm_compute. reflexivity.
Defined.


Lemma signing_failure_rejects_witness :
  exists s,
    Sample.method funded (fun _ => final 1) (Rejected refused)
      (Fulfilled "txid"%string) (payment true) select_and_sign
    = RejectedWith (Thrown refused) s
    /\ signed (log s) = [Some (final 50)] /\ sent (log s) = [].
Proof.
  eapply (on_method signing_failure_rejects
            funded (fun _ => final 1) (Rejected refused)
            (Fulfilled "txid"%string) (payment true) select_and_sign true).
  - reflexivity.
  - vm_compute. reflexivity.
  - reflexivity.
  - reflexivity.
  - reflexivity.
Defined.

Lemma final_available_skips_retry_witness :
  exists s,
    Sample.onAccountSelection funded (fun _ => final 1) (payment false)
      (Int 0) discovered
    = (s, None)
    /\ composed_at (log s) = [].
Proof.
  destruct (final_available_skips_retry
              Sample.formatAmount Sample.feeLevels
              (fun _ _ => funded) (fun _ _ _ => final 1)
              Sample.getEstimatedTime true (payment false) (Int 0) discovered)
    as (s & raised & Hsel & Hcomposed & _ & Hshown).
  - reflexivity.
  - reflexivity.
  - destruct Hshown as (-> & _); [simpl; lia|].
    exists s. split; [exact Hsel|exact Hcomposed].
Defined.


Lemma custom_fee_edits_keep_slots_witness :
  exists s c,
    Sample.composingCycle funded (fun _ => final 1) (payment false)
      ([custom_fee "7"; custom_fee "3"] ++ []) selected
    = Waiting s
    /\ txComposer s = Some c
    /\ length (composed c) = 3%nat
    /\ composed_at (log s) = [Int 7; Int 3].
Proof.
  destruct (on_cycle custom_fee_edits_keep_slots
              funded (fun _ => final 1) (payment false)
              [custom_fee "7"; custom_fee "3"] [Int 7; Int 3] [] selected
              {| tc_account := Some Sample.account0;
                 tc_outputs := outputs (payment false);
                 composed := funded |})
    as (s & c & Hcycle & Hc & Hlen & _ & _ & Hlog & _).
  - repeat constructor.
  - reflexivity.
  - exists s, c. split; [exact Hcycle|]. split; [exact Hc|].
    split; [exact Hlen|exact Hlog].
Defined.

Lemma fee_after_change_account_witness :
  Sample.composingCycle funded (fun _ => final 1) (payment false)
    [UiResponse "ui-change_account" Undefined; choose_fee "1"] selected
  = Chosen (Some (final 20)) (restoreDiscovery (payment false) selected).
Proof.
  exact (on_cycle fee_after_change_account
           funded (fun _ => final 1) (payment false)
           Undefined (Obj {[ "type" := Str "fee"; "value" := Str "1" ]}) []
           selected
           {| tc_account := Some Sample.account0;
              tc_outputs := outputs (payment false);
              composed := funded |}
           ltac:(discriminate) ltac:(discriminate) ltac:(discriminate)
           eq_refl eq_refl).
Defined.

End Examples.
